(** * makeCVExl: enrichment of scan exports with CVE metadata

    A shallow embedding of [makeCVExl.py] and the verification of its
    specification.  The script reads scan exports, builds one worksheet per
    export, fetches one JSON record per CVE identifier into a cache
    directory, and merges scores, vectors and the weakness class into the
    worksheet.

    The functions of the script are computations in a monad of state,
    exceptions and emitted events ([M]); the events are the calls to the
    logger, the requests and the pauses.  What is outside the script is
    kept at its interface:
    - [requests]: an oracle gives the outcome of the n-th request; a
      response that passes [raise_for_status] has a JSON body;
    - [json.load]: a cache file is described by what loading it yields;
    - [openpyxl]: a worksheet is the table of its cells (value and fill),
      a workbook is its sheet [result], and a workbook that is saved and
      loaded again is the same table;
    - [str] of a list or of a dict (Python's [repr]) is a parameter;
    - the pool of workers: the fetches run one after the other.  *)

From Stdlib Require Import Ascii.
From stdpp Require Import base gmap list strings pretty.

Open Scope string_scope.
Open Scope list_scope.
Open Scope nat_scope.
Set Warnings "-register-all".

(** ** Python values *)

Module Py.

(** The exceptions the script can meet.  [IOError] stands for [OSError] and
    its subclasses; [UnicodeDecodeError] is a [ValueError], and
    [JSONDecodeError] is one too, but neither is an [IOError]. *)
Inductive exn :=
  | JSONDecodeError | IOError | UnicodeDecodeError
  | KeyError | IndexError | TypeError | AttributeError | ValueError.

Inductive result (A : Type) :=
  | Ok (a : A)
  | Raise (e : exn).
Arguments Ok {A} a.
Arguments Raise {A} e.

(** What [json.load] returns.  A float carries the text [str] gives for it;
    an object keeps its members in order, one per key. *)
Inductive json :=
  | JNull
  | JBool (b : bool)
  | JInt (z : Z)
  | JFloat (text : string)
  | JStr (s : string)
  | JArr (items : list json)
  | JObj (members : list (string * json)).

Fixpoint assoc {A} (k : string) (l : list (string * A)) : option A :=
  match l with
  | [] => None
  | (k', v) :: l' => if String.eqb k k' then Some v else assoc k l'
  end.

(** [d[k] = v] on a dict: a present key keeps its place. *)
Fixpoint dict_set {A} (k : string) (v : A) (l : list (string * A))
  : list (string * A) :=
  match l with
  | [] => [(k, v)]
  | (k', v') :: l' =>
      if String.eqb k k' then (k, v) :: l' else (k', v') :: dict_set k v l'
  end.

(** [p in s] on two strings. *)
Fixpoint substring_of (p s : string) : bool :=
  String.prefix p s ||
  match s with
  | EmptyString => false
  | String _ s' => substring_of p s'
  end.

(** [s.replace(old, new)] for a non-empty [old]: the occurrences of [old]
    are replaced from the left, without overlap.  [skip] counts the
    characters of a matched occurrence still to drop. *)
Fixpoint replace_go (old new : string) (skip : nat) (s : string) : string :=
  match s with
  | EmptyString => EmptyString
  | String c s' =>
      match skip with
      | S k => replace_go old new k s'
      | O =>
          if String.prefix old s
          then new +:+ replace_go old new (String.length old - 1) s'
          else String c (replace_go old new 0 s')
      end
  end.

Definition replace (old new s : string) : string := replace_go old new 0 s.

Definition is_str (key : string) (v : json) : bool :=
  match v with
  | JStr s => String.eqb key s
  | _ => false
  end.

(** [bool(v)] *)
Definition truthy (v : json) : bool :=
  match v with
  | JNull => false
  | JBool b => b
  | JInt z => negb (Z.eqb z 0)
  | JFloat t => negb (String.eqb t "0.0" || String.eqb t "-0.0")
  | JStr s => negb (String.eqb s "")
  | JArr l => match l with [] => false | _ => true end
  | JObj l => match l with [] => false | _ => true end
  end.

(** [v.get(key, default)]: only a dict has [get]. *)
Definition get (v : json) (key : string) (dflt : json) : result json :=
  match v with
  | JObj l => Ok (default dflt (assoc key l))
  | _ => Raise AttributeError
  end.

(** [v[0]] *)
Definition item0 (v : json) : result json :=
  match v with
  | JArr l => match l with x :: _ => Ok x | [] => Raise IndexError end
  | JStr s =>
      match s with
      | String c _ => Ok (JStr (String c EmptyString))
      | EmptyString => Raise IndexError
      end
  | JObj _ => Raise KeyError
  | _ => Raise TypeError
  end.

(** [v[key]] for a string [key] *)
Definition item (v : json) (key : string) : result json :=
  match v with
  | JObj l => match assoc key l with Some x => Ok x | None => Raise KeyError end
  | _ => Raise TypeError
  end.

(** [key in v] for a string [key] *)
Definition contains (key : string) (v : json) : result bool :=
  match v with
  | JObj l => Ok (bool_decide (is_Some (assoc key l)))
  | JArr l => Ok (existsb (is_str key) l)
  | JStr s => Ok (substring_of key s)
  | _ => Raise TypeError
  end.

(** [str(v)]; [repr] renders lists and dicts. *)
Definition str (repr : json -> string) (v : json) : string :=
  match v with
  | JNull => "None"
  | JBool b => if b then "True" else "False"
  | JInt z => pretty z
  | JFloat t => t
  | JStr s => s
  | JArr _ | JObj _ => repr v
  end.

End Py.
Export Py.

(** ** Worksheets *)

Module Xl.

(** What a cell holds: the script writes text; a workbook that was on disk
    before may hold the other kinds. *)
Inductive xl_value :=
  | XNone
  | XStr (s : string)
  | XBool (b : bool)
  | XInt (z : Z)
  | XFloat (text : string).

(** [PatternFill(start_color=c, end_color=c, fill_type='solid')] is
    [Solid c]. *)
Inductive fill_style :=
  | NoFill
  | Solid (color : string).

Record cell := Cell { value : xl_value; fill : fill_style }.

#[global] Instance xl_value_eq_dec : EqDecision xl_value.
Proof. solve_decision. Defined.

#[global] Instance fill_style_eq_dec : EqDecision fill_style.
Proof. solve_decision. Defined.

#[global] Instance cell_eq_dec : EqDecision cell.
Proof. solve_decision. Defined.

(** A worksheet maps (row, column), both from 1, to the cells it has. *)
Abbreviation sheet := (gmap (nat * nat) cell).

Definition blank : cell := Cell XNone NoFill.

(** [ws.cell(r, c)]: a cell that is not there yet is made, blank. *)
Definition cell_at (ws : sheet) (r c : nat) : cell :=
  default blank (ws !! (r, c)).

(** [ws.cell(r, c).value = v] *)
Definition set_value (r c : nat) (v : xl_value) (ws : sheet) : sheet :=
  <[(r, c) := Cell v (fill (cell_at ws r c))]> ws.

(** [ws.cell(r, c).fill = f] *)
Definition set_fill (r c : nat) (f : fill_style) (ws : sheet) : sheet :=
  <[(r, c) := Cell (value (cell_at ws r c)) f]> ws.

Definition max_row (ws : sheet) : nat :=
  max_list (1 :: (fst <$> elements (dom ws))).

Definition max_column (ws : sheet) : nat :=
  max_list (1 :: (snd <$> elements (dom ws))).

(** The row numbers of [ws.iter_rows(min_row=m)]; every row spans the
    columns 1 to [max_column ws]. *)
Definition iter_rows (ws : sheet) (min_row : nat) : list nat :=
  seq min_row (max_row ws + 1 - min_row).

(** [str(v)] of a cell's value, as an f-string renders it. *)
Definition fstr (v : xl_value) : string :=
  match v with
  | XNone => "None"
  | XStr s => s
  | XBool b => if b then "True" else "False"
  | XInt z => pretty z
  | XFloat t => t
  end.

(** Assigning a JSON value to a cell.  A list or a dict is refused by
    openpyxl with a [ValueError]. *)
Definition to_cell (v : json) : result xl_value :=
  match v with
  | JNull => Ok XNone
  | JBool b => Ok (XBool b)
  | JInt z => Ok (XInt z)
  | JFloat t => Ok (XFloat t)
  | JStr s => Ok (XStr s)
  | JArr _ | JObj _ => Raise ValueError
  end.

End Xl.
Export Xl.

(** ** Effects *)

Inductive level := INFO | WARNING | ERROR | CRITICAL.

(** One constructor per logging call of the script, with the values its
    message is formatted from. *)
Inductive message :=
  | CreatingFolder (path : string)
  | FetchingData (cveid : string)
  | SavedFile (filename : string)
  | RequestFailed (e : string) (attempt max_attempts : nat)
  | FetchFailed (max_attempts : nat)
  | FileIOError (e : string)
  | FileExists (filename : string)
  | NoExcelFile (file_path : string)
  | FetchError (cveid : string) (e : exn)
  | NoCacheFile (filename : string)
  | NoVulnerabilities (filename : string)
  | NoBaseScores (cveid : string)
  | BaseScores (cveid : string) (scores : list (string * string))
  | JsonError (filename : string) (e : exn)
  | SaveError (file_path : string) (e : exn)
  | NoCsvFile (file : string)
  | FileError (file : string) (e : exn).

Inductive event :=
  | Log (l : level) (m : message)
  | Request (cveid : string)
  | Sleep (seconds : nat).

(** A computation on a state [S]: its result or the exception it raises,
    the state it leaves, and the events it emits, in order.  What was
    written before an exception stays written. *)
Definition M (S A : Type) : Type := S -> result A * S * list event.

Definition ret {S A} (a : A) : M S A := fun s => (Ok a, s, []).

Definition bind {S A B} (m : M S A) (k : A -> M S B) : M S B :=
  fun s =>
    match m s with
    | (Ok a, s1, l1) =>
        match k a s1 with
        | (r, s2, l2) => (r, s2, l1 ++ l2)
        end
    | (Raise e, s1, l1) => (Raise e, s1, l1)
    end.

#[global] Instance M_ret {S} : MRet (M S) := fun A => @ret S A.
#[global] Instance M_bind {S} : MBind (M S) := fun A B k m => bind m k.

Definition raise {S A} (e : exn) : M S A := fun s => (Raise e, s, []).

Definition lift {S A} (r : result A) : M S A := fun s => (r, s, []).

Definition emit {S} (ev : event) : M S unit := fun s => (Ok tt, s, [ev]).

Definition log {S} (l : level) (m : message) : M S unit := emit (Log l m).

Definition gets {S A} (f : S -> A) : M S A := fun s => (Ok (f s), s, []).

Definition modify {S} (f : S -> S) : M S unit := fun s => (Ok tt, f s, []).

(** [try: m except <caught> as e: h e] *)
Definition try_except {S A} (m : M S A) (caught : exn -> bool)
    (h : exn -> M S A) : M S A :=
  fun s =>
    match m s with
    | (Ok a, s1, l1) => (Ok a, s1, l1)
    | (Raise e, s1, l1) =>
        if caught e
        then match h e s1 with (r, s2, l2) => (r, s2, l1 ++ l2) end
        else (Raise e, s1, l1)
    end.

(** [for x in l: body x] *)
Fixpoint for_each {S A} (body : A -> M S unit) (l : list A) : M S unit :=
  match l with
  | [] => ret tt
  | x :: l' => body x ;; for_each body l'
  end.

(** ** The files and the network *)

(** A file of the cache directory, by what [open] and [json.load] make of
    it. *)
Inductive cache_file :=
  | Unreadable                (* [open] raises an [IOError] *)
  | BadEncoding               (* reading raises [UnicodeDecodeError] *)
  | BadJson                   (* [json.load] raises [JSONDecodeError] *)
  | Json (v : json).          (* [json.load] returns [v] *)

(** One pass through the [try] block of [getCVEInfo]. *)
Inductive attempt :=
  | RequestException (e : string) (* [get] or [raise_for_status] raises *)
  | WriteIOError (e : string)     (* [open(filename, "w")] raises *)
  | Stored (body : json).         (* [res.json()] is dumped to the file *)

Record env := Env {
  net : nat -> string -> attempt;  (* the n-th request, for an identifier *)
  py_repr : json -> string         (* [str] of a list or a dict *)
}.

Record world := World {
  cache_dir : bool;                (* [os.path.isdir(CACHE_PATH)] *)
  files : gmap string cache_file;  (* the JSON files, by path *)
  docs : gmap string sheet;        (* the saved workbooks, by path *)
  requests : nat                   (* requests sent so far *)
}.

Definition isfile (path : string) : M world bool :=
  gets (fun w => bool_decide (is_Some (files w !! path))).

Definition makedirs : M world unit :=
  modify (fun w => World true (files w) (docs w) (requests w)).

Definition write_file (path : string) (f : cache_file) : M world unit :=
  modify (fun w => World (cache_dir w) (<[path := f]> (files w)) (docs w)
                         (requests w)).

Definition request (E : env) (cveid : string) : M world attempt :=
  emit (Request cveid) ;;
  n ← gets requests;
  modify (fun w => World (cache_dir w) (files w) (docs w) (S (requests w))) ;;
  ret (net E n cveid).

Definition sleep (seconds : nat) : M world unit := emit (Sleep seconds).

(** [os.path.join(a, b)] on a POSIX system, for [a] without a final
    slash. *)
Definition os_path_join (a b : string) : string :=
  if String.prefix "/" b then b else a +:+ "/" +:+ b.

(** ** Constants *)

Definition CACHE_PATH : string := "cache".
Definition XLSX_FILENAME : string := "result.xlsx".

Definition COLUMN_INDEXES : list (string * nat) :=
  [("PluginID", 1); ("Risk", 2); ("Name", 3); ("CVE", 4); ("CWE", 5);
   ("V20BS", 6); ("V20Vector", 7); ("V30BS", 8); ("V30Vector", 9);
   ("V31BS", 10); ("V31Vector", 11); ("V40BS", 12); ("V40Vector", 13)].

(** [COLUMN_INDEXES[name]] *)
Definition column (name : string) : result nat :=
  match assoc name COLUMN_INDEXES with
  | Some c => Ok c
  | None => Raise KeyError
  end.

(** ** getCVEInfo *)

Definition max_attempts : nat := 3.

Definition cache_filename (CVEID : xl_value) : string :=
  os_path_join CACHE_PATH (fstr CVEID +:+ ".json").

(** The [while attempt < max_attempts] loop.  [fuel] bounds the number of
    passes; [fetch_loop_fuel] shows that [S max_attempts] is never used
    up. *)
Fixpoint fetch_loop (E : env) (CVEID filename : string) (fuel attempt : nat)
  : M world unit :=
  match fuel with
  | O => ret tt
  | S fuel' =>
      if attempt <? max_attempts then
        a ← request E CVEID;
        match a with
        | Stored body =>
            write_file filename (Json body) ;;
            log INFO (SavedFile filename)
        | RequestException e =>
            let attempt := attempt + 1 in
            log ERROR (RequestFailed e attempt max_attempts) ;;
            (if attempt <? max_attempts then sleep 1
             else log ERROR (FetchFailed max_attempts)) ;;
            fetch_loop E CVEID filename fuel' attempt
        | WriteIOError e =>
            log ERROR (FileIOError e)
        end
      else ret tt
  end.

Definition getCVEInfo (E : env) (CVEID : xl_value) : M world unit :=
  let filename := cache_filename CVEID in
  isdir ← gets cache_dir;
  (if negb isdir then log INFO (CreatingFolder CACHE_PATH) ;; makedirs
   else ret tt) ;;
  present ← isfile filename;
  if negb present then
    log INFO (FetchingData (fstr CVEID)) ;;
    fetch_loop E (fstr CVEID) filename (S max_attempts) 0
  else
    log INFO (FileExists filename).

(** ** fill_row_with_color *)

(** [sheet[row_number]] is the row's cells in the columns 1 to
    [max_column]. *)
Definition fill_row_with_color (row_number : nat) (f : fill_style)
    (ws : sheet) : sheet :=
  foldl (fun ws c => set_fill row_number c f ws) ws (seq 1 (max_column ws)).

(** ** write_to_excel *)

(** A row of [csv.DictReader]: a short line leaves its last fields at
    [None]. *)
Abbreviation csv_row := (gmap string (option string)).

(** [row_data.get(name, '')] *)
Definition field (row_data : csv_row) (name : string) : xl_value :=
  match row_data !! name with
  | Some (Some s) => XStr s
  | Some None => XNone
  | None => XStr ""
  end.

(** [enumerate(l, start=n)] *)
Definition enumerate {A} (n : nat) (l : list A) : list (nat * A) :=
  zip (seq n (length l)) l.

Definition write_header (ws : sheet) : sheet :=
  foldl (fun ws '(col_name, col_idx) => set_value 1 col_idx (XStr col_name) ws)
        ws COLUMN_INDEXES.

Definition rows_to_write (cvedict : list (string * csv_row))
  : list (list xl_value) :=
  map (fun '(cveid, row_data) =>
         [field row_data "Plugin ID"; field row_data "Risk";
          field row_data "Name"; XStr cveid])
      cvedict.

Definition write_row (row_idx : nat) (row_data : list xl_value) (ws : sheet)
  : sheet :=
  foldl (fun ws '(col_idx, v) => set_value row_idx col_idx v ws)
        ws (enumerate 1 row_data).

Definition write_rows (rows : list (list xl_value)) (ws : sheet) : sheet :=
  foldl (fun ws '(row_idx, row_data) => write_row row_idx row_data ws)
        ws (enumerate 2 rows).

Definition xlsx_path (basename : string) : string :=
  basename +:+ "_" +:+ XLSX_FILENAME.

(** [wb.save(file_path)]; the disk takes what is written to it. *)
Definition save (file_path : string) (ws : sheet) : M world unit :=
  modify (fun w => World (cache_dir w) (files w) (<[file_path := ws]> (docs w))
                         (requests w)).

(** A workbook on disk is its sheet named [result]; a new workbook is
    empty. *)
Definition write_to_excel (basename : string)
    (cvedict : list (string * csv_row)) : M world unit :=
  let file_path := xlsx_path basename in
  d ← gets (fun w => docs w !! file_path);
  let ws := match d with
            | Some ws => ws
            | None => write_header ∅
            end in
  save file_path (write_rows (rows_to_write cvedict) ws).

(** ** update_excel_with_cve_info *)

(** [row[i].value] for a row of [iter_rows], [width] cells wide. *)
Definition row_value (width r i : nat) : M sheet xl_value :=
  if i <? width then gets (fun ws => value (cell_at ws r (i + 1)))
  else raise IndexError.

(** [ws.cell(r, c).value = v] for a JSON value: the cell is made, then a
    list or a dict is refused. *)
Definition assign (r c : nat) (v : json) : M sheet unit :=
  modify (fun ws => <[(r, c) := cell_at ws r c]> ws) ;;
  x ← lift (to_cell v);
  modify (set_value r c x).

(** [open(filename)] and [json.load] *)
Definition load_json (fs : gmap string cache_file) (filename : string)
  : result json :=
  match fs !! filename with
  | Some (Json v) => Ok v
  | Some BadJson => Raise JSONDecodeError
  | Some BadEncoding => Raise UnicodeDecodeError
  | Some Unreadable | None => Raise IOError
  end.

Definition cvss_versions : list (string * string) :=
  [("cvssMetricV2", "V20"); ("cvssMetricV30", "V30");
   ("cvssMetricV31", "V31"); ("cvssMetricV40", "V40")].

(** [{key: "N/A" for key in COLUMN_INDEXES.keys() if key.startswith('V')}] *)
Definition initial_scores : list (string * string) :=
  map (fun key => (key, "N/A"))
      (filter (fun key => String.prefix "V" key = true) (COLUMN_INDEXES.*1)).

(** [CVSSScores[key]] *)
Definition score (scores : list (string * string)) (key : string)
  : result string :=
  match assoc key scores with
  | Some v => Ok v
  | None => Raise KeyError
  end.

(** Lines 164-169: one pass of the loop over the four versions;
    [CVSSScores] is threaded through. *)
Definition cvss_step (E : env) (r : nat) (cvss_dicts : json)
    (CVSSScores : list (string * string)) (version : string * string)
  : M sheet (list (string * string)) :=
  let '(cvss_key, cvss_label) := version in
  present ← lift (contains cvss_key cvss_dicts);
  if (present : bool) then
    metric ← lift (item cvss_dicts cvss_key);
    first ← lift (item0 metric);
    cvss_data ← lift (item first "cvssData");
    base_score ← lift (item cvss_data "baseScore");
    let CVSSScores :=
      dict_set (cvss_label +:+ "BS") (str (py_repr E) base_score) CVSSScores in
    vector ← lift (item cvss_data "vectorString");
    let CVSSScores :=
      dict_set (cvss_label +:+ "Vector")
               (replace ("CVSS:" +:+ cvss_label +:+ "/") ""
                        (str (py_repr E) vector))
               CVSSScores in
    bs ← lift (score CVSSScores (cvss_label +:+ "BS"));
    c ← lift (column (cvss_label +:+ "BS"));
    modify (set_value r c (XStr bs)) ;;
    vec ← lift (score CVSSScores (cvss_label +:+ "Vector"));
    c ← lift (column (cvss_label +:+ "Vector"));
    modify (set_value r c (XStr vec)) ;;
    ret CVSSScores
  else ret CVSSScores.

Fixpoint fold_m {S A B} (f : B -> A -> M S B) (b : B) (l : list A) : M S B :=
  match l with
  | [] => ret b
  | x :: l' => b' ← f b x; fold_m f b' l'
  end.

Fixpoint map_m {S A B} (f : A -> M S B) (l : list A) : M S (list B) :=
  match l with
  | [] => ret []
  | x :: l' => y ← f x; ys ← map_m f l'; ret (y :: ys)
  end.

Definition caught_by_merge (e : exn) : bool :=
  match e with
  | JSONDecodeError | IOError => true
  | _ => false
  end.

(** Lines 159-160: [if "weaknesses" in cve_info:] and the assignment to
    the CWE cell. *)
Definition write_cwe (r : nat) (cve_info : json) : M sheet unit :=
  has_cwe ← lift (contains "weaknesses" cve_info);
  if (has_cwe : bool) then
    weaknesses ← lift (item cve_info "weaknesses");
    weakness ← lift (item0 weaknesses);
    descriptions ← lift (item weakness "description");
    description ← lift (item0 descriptions);
    v ← lift (item description "value");
    c ← lift (column "CWE");
    assign r c v
  else ret tt.

(** Lines 162-176: the loop over the four versions and the test that
    follows it. *)
Definition write_scores (E : env) (r : nat) (cveid : xl_value)
    (cvss_dicts : json) : M sheet unit :=
  CVSSScores ← fold_m (cvss_step E r cvss_dicts) initial_scores cvss_versions;
  let CVSSBaseScores :=
    filter (fun kv => substring_of "BS" kv.1 = true) CVSSScores in
  if forallb (fun kv => String.eqb kv.2 "N/A") CVSSBaseScores then
    log ERROR (NoBaseScores (fstr cveid)) ;;
    modify (fill_row_with_color r (Solid "D3D3D3"))
  else
    log INFO (BaseScores (fstr cveid) CVSSBaseScores).

(** Lines 150-176: the [try] block for one row whose cache file exists. *)
Definition merge_record (E : env) (fs : gmap string cache_file)
    (r : nat) (cveid : xl_value) (filename : string) : M sheet unit :=
  json_dict ← lift (load_json fs filename);
  vulnerabilities ← lift (get json_dict "vulnerabilities" (JArr []));
  if negb (truthy vulnerabilities) then
    log WARNING (NoVulnerabilities filename)
  else
    v0 ← lift (item0 vulnerabilities);
    cve ← lift (get v0 "cve" (JObj []));
    cvss_dicts ← lift (get cve "metrics" (JObj []));
    v0 ← lift (item0 vulnerabilities);
    cve_info ← lift (get v0 "cve" (JObj []));
    write_cwe r cve_info ;;
    write_scores E r cveid cvss_dicts.

(** Lines 142-178: the body of the loop over the data rows.  [fs] is the
    cache directory after the fetches: nothing writes to it during the
    merge.  [width] is the number of cells of a row of [iter_rows], fixed
    when the loop starts. *)
Definition merge_row (E : env) (fs : gmap string cache_file)
    (width r : nat) : M sheet unit :=
  c ← lift (column "CVE");
  cveid ← row_value width r (c - 1);
  let filename := cache_filename cveid in
  if negb (bool_decide (is_Some (fs !! filename))) then
    log WARNING (NoCacheFile filename)
  else
    try_except (merge_record E fs r cveid filename) caught_by_merge
               (fun e => log ERROR (JsonError filename e)).

(** Line 141: the loop over [ws.iter_rows(min_row=2)]. *)
Definition merge_rows (E : env) (fs : gmap string cache_file) (ws : sheet)
  : M sheet unit :=
  for_each (merge_row E fs (max_column ws)) (iter_rows ws 2).

(** Run a computation on the workbook in memory; an exception that leaves
    it drops the workbook. *)
Definition with_sheet {A : Type} (ws : sheet) (m : M sheet A)
  : M world (A * sheet) :=
  fun w =>
    match m ws with
    | (Ok a, ws', l) => (Ok (a, ws'), w, l)
    | (Raise e, _, l) => (Raise e, w, l)
    end.

(** Lines 131-138: every identifier is submitted, every outcome is
    observed, and an exception of a fetch is logged.  The fetches are run
    one after the other in the order of the rows: one schedule of the pool
    of workers. *)
Definition fetch_all (E : env) (cve_ids : list xl_value) : M world unit :=
  for_each (fun cve_id =>
              try_except (getCVEInfo E cve_id) (fun _ => true)
                         (fun e => log ERROR (FetchError (fstr cve_id) e)))
           cve_ids.

Definition update_excel_with_cve_info (E : env) (basename : string)
  : M world unit :=
  let file_path := xlsx_path basename in
  d ← gets (fun w => docs w !! file_path);
  match d with
  | None => log ERROR (NoExcelFile file_path)
  | Some ws =>
      c ← lift (column "CVE");
      ids ← with_sheet ws
              (map_m (fun r => row_value (max_column ws) r (c - 1))
                     (iter_rows ws 2));
      let cve_ids := ids.1 in
      fetch_all E cve_ids ;;
      fs ← gets files;
      merged ← with_sheet ws (merge_rows E fs ws);
      try_except (save file_path merged.2) (fun _ => true)
                 (fun e => log ERROR (SaveError file_path e))
  end.

(** ** process_csv_file *)

(** [os.path.basename], POSIX *)
Fixpoint basename_go (s acc : string) : string :=
  match s with
  | EmptyString => acc
  | String c s' =>
      if Ascii.eqb c "/"%char then basename_go s' EmptyString
      else basename_go s' (acc +:+ String c EmptyString)
  end.

Definition os_path_basename (p : string) : string := basename_go p EmptyString.

(** [os.path.splitext(p)[0]] for a name without a slash: the name up to
    its last dot, when a character other than a dot comes before it. *)
Fixpoint splitext_go (s : string) (named : bool) : option string :=
  match s with
  | EmptyString => None
  | String c s' =>
      match splitext_go s' (named || negb (Ascii.eqb c "."%char)) with
      | Some root => Some (String c root)
      | None => if Ascii.eqb c "."%char && named then Some EmptyString else None
      end
  end.

Definition splitext_root (p : string) : string :=
  default p (splitext_go p false).

(** [{row['CVE']: row for row in reader if row['CVE']}] *)
Fixpoint build_cvedict (reader : list csv_row) (acc : list (string * csv_row))
  : result (list (string * csv_row)) :=
  match reader with
  | [] => Ok acc
  | row :: reader' =>
      match row !! "CVE" with
      | None => Raise KeyError
      | Some None => build_cvedict reader' acc
      | Some (Some cve) =>
          if String.eqb cve "" then build_cvedict reader' acc
          else build_cvedict reader' (dict_set cve row acc)
      end
  end.

(** [content] is what [csv.DictReader] reads from [file], [None] when
    [file] is not there. *)
Definition process_csv_file (E : env) (file : string)
    (content : option (list csv_row)) : M world unit :=
  let basename := splitext_root (os_path_basename file) in
  try_except
    match content with
    | None => log ERROR (NoCsvFile file)
    | Some reader =>
        cvedict ← lift (build_cvedict reader []);
        write_to_excel basename cvedict ;;
        update_excel_with_cve_info E basename
    end
    (fun _ => true)
    (fun e => log ERROR (FileError file e)).

(** ** What the specification speaks of *)

(** The fallback fill of a row without scores. *)
Definition FALLBACK_FILL : fill_style := Solid "D3D3D3".

(** Every cell of row [r] carries the fallback fill. *)
Definition highlighted (ws : sheet) (r : nat) : Prop :=
  forall c, 1 <= c <= max_column ws -> fill (cell_at ws r c) = FALLBACK_FILL.

(** The eight score and vector cells of row [r] hold the marker. *)
Definition scores_not_available (ws : sheet) (r : nat) : Prop :=
  forall c, 6 <= c <= 13 -> value (cell_at ws r c) = XStr "N/A".

(** The columns the merge writes values to: CWE, scores and vectors. *)
Definition merge_column (c : nat) : Prop := 5 <= c <= 13.

(** The value of a cell of a saved workbook. *)
Definition doc_value (w : world) (path : string) (r c : nat) : xl_value :=
  match docs w !! path with
  | Some ws => value (cell_at ws r c)
  | None => XNone
  end.

(** The value that [write_rows] puts in a cell, if it writes there. *)
Definition written (rows : list (list xl_value)) (r c : nat)
  : option xl_value :=
  if decide (2 <= r /\ 1 <= c)
  then rows !! (r - 2) ≫= (fun data : list xl_value => data !! (c - 1))
  else None.

(** Every saved workbook has the thirteen columns of the header that
    [write_to_excel] gives to the workbooks it creates. *)
Definition full_headers (w : world) : Prop :=
  forall path ws, docs w !! path = Some ws -> 13 <= max_column ws.

(** What a computation leaves of the state it starts from: [preserves R m]
    when [R] relates every state to the one [m] ends in, whether it
    returns or raises. *)
Definition preserves {S A} (R : S -> S -> Prop) (m : M S A) : Prop :=
  forall s, R s (m s).1.2.

(** The ways the merge changes a worksheet, all in rows that satisfy [P]:
    it makes a cell, it writes a value in a column that satisfies [C], it
    sets a fill. *)
Inductive touches (P C : nat -> Prop) : sheet -> sheet -> Prop :=
  | touches_refl ws : touches P C ws ws
  | touches_make ws ws' r c :
      touches P C ws ws' -> P r ->
      touches P C ws (<[(r, c) := cell_at ws' r c]> ws')
  | touches_value ws ws' r c v :
      touches P C ws ws' -> P r -> C c ->
      touches P C ws (set_value r c v ws')
  | touches_fill ws ws' r c f :
      touches P C ws ws' -> P r ->
      touches P C ws (set_fill r c f ws').

(** The Report Builder, then the fetches and the merge: what
    [process_csv_file] runs for a file it could read. *)
Definition build_and_merge (E : env) (basename : string)
    (cvedict : list (string * csv_row)) : M world unit :=
  write_to_excel basename cvedict ;;
  update_excel_with_cve_info E basename.


(** What one pass of the merge does to its row, cell by cell: for each
    column it touches, the value and the fill it sets, if any. *)
Record patch := Patch { pvalue : option xl_value; pfill : option fill_style }.

Definition apply_patch (p : patch) (x : cell) : cell :=
  Cell (default (value x) (pvalue p)) (default (fill x) (pfill p)).

(** [q] after [p] *)
Definition after (q p : patch) : patch :=
  Patch (match pvalue q with Some v => Some v | None => pvalue p end)
        (match pfill q with Some f => Some f | None => pfill p end).

Definition row_patch : Type := nat -> option patch.

Definition no_patch : row_patch := fun _ => None.

Definition one_patch (c : nat) (p : patch) : row_patch :=
  fun c' => if decide (c' = c) then Some p else None.

(** [P], then [Q] *)
Definition then_patch (P Q : row_patch) : row_patch :=
  fun c =>
    match P c, Q c with
    | Some p, Some q => Some (after q p)
    | Some p, None => Some p
    | None, q => q
    end.

(** [ws'] is [ws] with row [r] patched by [P]. *)
Definition patched (r : nat) (P : row_patch) (ws ws' : sheet) : Prop :=
  forall r' c,
    ws' !! (r', c) =
    if decide (r' = r) then
      match P c with
      | Some p => Some (apply_patch p (cell_at ws r' c))
      | None => ws !! (r', c)
      end
    else ws !! (r', c).

(** A patch within the first [W] columns that sets values from the CWE
    column on only. *)
Definition scoped (W : nat) (P : row_patch) : Prop :=
  forall c p, P c = Some p -> 1 <= c <= W /\ (5 <= c \/ pvalue p = None).

(** A computation whose result, events and patch of row [r] do not depend
    on the worksheet it starts from, among those [W] columns wide that
    have a row [r]. *)
Definition oblivious (W r : nat) {A : Type} (m : M sheet A) : Prop :=
  exists res l P,
    scoped W P /\
    forall ws, max_column ws = W -> r <= max_row ws ->
      exists ws', m ws = (res, ws', l) /\ patched r P ws ws'.

(** ** Sample data *)

Module Sample.

Definition fresh : world := World false ∅ ∅ 0.

Definition scan_row : csv_row :=
  {[ "Plugin ID" := Some "100"; "Risk" := Some "High"; "Name" := Some "X";
     "CVE" := Some "CVE-2021-44228" ]}.

Definition vector31 : string := "CVSS:3.1/AV:N/AC:L/PR:N/UI:N/S:C/C:H/I:H/A:H".

Definition cvss_data31 : json :=
  JObj [("version", JStr "3.1"); ("vectorString", JStr vector31);
        ("baseScore", JFloat "10.0")].

Definition metrics31 : json :=
  JObj [("cvssMetricV31", JArr [JObj [("cvssData", cvss_data31)] ])].

Definition record_of (metrics : json) : json :=
  JObj [("vulnerabilities",
         JArr [JObj [("cve", JObj [("id", JStr "CVE-2021-44228");
                                   ("metrics", metrics)])] ])].

(** The record of the specification's example: one CVSS 3.1 metric. *)
Definition log4shell : json := record_of metrics31.

(** A response without any vulnerability entry. *)
Definition no_entries : json :=
  JObj [("totalResults", JInt 0); ("vulnerabilities", JArr [])].

(** An entry without any metric. *)
Definition no_metrics : json := record_of (JObj []).


Definition answers (body : json) : env :=
  Env (fun _ _ => Stored body) (fun _ => "").

Definition down : env :=
  Env (fun _ _ => RequestException "timeout") (fun _ => "").

(** A worksheet with two data rows, as [write_to_excel] builds it. *)
Definition two_rows : sheet :=
  write_rows [[XStr "100"; XStr "High"; XStr "X"; XStr "CVE-A"];
              [XStr "101"; XStr "Low"; XStr "Y"; XStr "CVE-B"]]
             (write_header ∅).


End Sample.

(** ** main *)

Definition CSV_DIR : string := "csv".

(** The directory [csv] and the rest of the world.  The directory is
    [None] when it is not there; else it lists its entries, in the order
    [glob] goes through them: the name of each, and what [csv.DictReader]
    reads from it, [None] for an entry that is not a regular file. *)
Record disk := Disk {
  csv_dir : option (list (string * option (list csv_row)));
  state : world
}.

(** The logging calls of [main]. *)
Inductive main_message :=
  | Started
  | Finished
  | ProcessingCsv (name : string)
  | FolderNotFound (dir : string)
  | MoveCsvFile
  | NoCsvFiles.

(** What [main] emits: its own log entries and the events of the files it
    processes. *)
Inductive main_event :=
  | MainLog (l : level) (m : main_message)
  | Step (ev : event).

(** [s.endswith(suffix)] *)
Fixpoint ends_with (suffix s : string) : bool :=
  String.eqb suffix s ||
  match s with
  | EmptyString => false
  | String _ s' => ends_with suffix s'
  end.

(** The names that [glob] gives for [*.csv] on a POSIX system: they end
    in [.csv] and do not start with a dot. *)
Definition matches_csv (name : string) : bool :=
  negb (String.prefix "." name) && ends_with ".csv" name.

(** [glob.glob(os.path.join(csv_dir, "*.csv"))], each path with what is
    read from it. *)
Definition glob_csv (entries : list (string * option (list csv_row)))
  : list (string * option (list csv_row)) :=
  map (fun entry => (os_path_join CSV_DIR entry.1, entry.2))
      (filter (fun entry => matches_csv entry.1 = true) entries).

(** The loop of [main] over the files. *)
Fixpoint process_files (E : env)
    (files : list (string * option (list csv_row))) (w : world)
  : result unit * world * list main_event :=
  match files with
  | [] => (Ok tt, w, [])
  | (file, content) :: files' =>
      match process_csv_file E file content w with
      | (Ok _, w1, l1) =>
          match process_files E files' w1 with
          | (r, w2, l2) =>
              (r, w2,
               MainLog INFO (ProcessingCsv (os_path_basename file))
                 :: map Step l1 ++ l2)
          end
      | (Raise e, w1, l1) =>
          (Raise e, w1,
           MainLog INFO (ProcessingCsv (os_path_basename file)) :: map Step l1)
      end
  end.

Definition main (E : env) (d : disk)
  : result unit * disk * list main_event :=
  match csv_dir d with
  | Some (entry :: entries) =>
      match process_files E (glob_csv (entry :: entries)) (state d) with
      | (Ok _, w, l) =>
          (Ok tt, Disk (csv_dir d) w,
           MainLog INFO Started :: l ++ [MainLog INFO Finished])
      | (Raise e, w, l) =>
          (Raise e, Disk (csv_dir d) w, MainLog INFO Started :: l)
      end
  | None =>
      (Ok tt, Disk (Some []) (state d),
       [MainLog INFO Started; MainLog ERROR (FolderNotFound CSV_DIR);
        MainLog ERROR MoveCsvFile; MainLog INFO Finished])
  | Some [] =>
      (Ok tt, d,
       [MainLog INFO Started; MainLog CRITICAL NoCsvFiles;
        MainLog INFO Finished])
  end.

(** ** Notions for the further properties *)

(** The events of [k] failed attempts in a row, the first one numbered
    [n]: each is a request, its error entry and the pause. *)
Fixpoint retries (cveid : string) (n : nat) (errors : list string)
  : list event :=
  match errors with
  | [] => []
  | e :: errors' =>
      [Request cveid; Log ERROR (RequestFailed e n max_attempts); Sleep 1]
      ++ retries cveid (S n) errors'
  end.

Definition is_request (ev : event) : bool :=
  match ev with
  | Request _ => true
  | _ => false
  end.

Definition is_sleep (ev : event) : bool :=
  match ev with
  | Sleep _ => true
  | _ => false
  end.

(** The number of requests, and of pauses, in a trace. *)
Definition count_requests (l : list event) : nat :=
  length (List.filter is_request l).

Definition count_sleeps (l : list event) : nat :=
  length (List.filter is_sleep l).

(** The rows of [reader] whose CVE field is [cve]. *)
Definition rows_of (cve : string) (reader : list csv_row) : list csv_row :=
  filter (fun row : csv_row => row !! "CVE" = Some (Some cve)) reader.

(** Every cell of [ws'] has the fill it has in [ws], or the fallback
    fill. *)
Definition fills_kept_or_fallback (ws ws' : sheet) : Prop :=
  forall r c, fill (cell_at ws' r c) = fill (cell_at ws r c) \/
              fill (cell_at ws' r c) = FALLBACK_FILL.

(** The names of the files that [main] announces, in the order of the
    log. *)
Definition announced (l : list main_event) : list string :=
  omap (fun ev => match ev with
                  | MainLog INFO (ProcessingCsv name) => Some name
                  | _ => None
                  end) l.




(** * Verification *)

(** ** Stepping through computations *)

Ltac unfold_m :=
  unfold mbind, mret, M_bind, M_ret, bind, ret, raise, lift, log, emit, gets,
    modify, try_except, isfile, makedirs, write_file, request, sleep, save
    in *.

(** ** Cells *)

Section Cells.
Implicit Types (ws : sheet) (r c : nat).

Lemma cell_at_insert ws r c r' c' x :
  cell_at (<[(r, c) := x]> ws) r' c' =
  if decide ((r, c) = (r', c')) then x else cell_at ws r' c'.
Proof. unfold cell_at. rewrite lookup_insert. by case_decide. Qed.

Lemma cell_at_set_value ws r c v r' c' :
  cell_at (set_value r c v ws) r' c' =
  if decide ((r, c) = (r', c')) then Cell v (fill (cell_at ws r c))
  else cell_at ws r' c'.
Proof. apply cell_at_insert. Qed.

Lemma cell_at_set_fill ws r c f r' c' :
  cell_at (set_fill r c f ws) r' c' =
  if decide ((r, c) = (r', c')) then Cell (value (cell_at ws r c)) f
  else cell_at ws r' c'.
Proof. apply cell_at_insert. Qed.

Lemma lookup_set_value ws r c v k :
set_value r c v ws !! k =
if decide ((r, c) = k) then Some (Cell v (fill (cell_at ws r c)))
else ws !! k.
Proof. unfold set_value. apply lookup_insert. Qed.

Lemma lookup_set_fill ws r c f k :
set_fill r c f ws !! k =
if decide ((r, c) = k) then Some (Cell (value (cell_at ws r c)) f)
else ws !! k.
Proof. unfold set_fill. apply lookup_insert. Qed.

Lemma max_list_le (l : list nat) n : max_list l <= n <-> Forall (fun x => x <= n) l.
Proof.
  induction l as [|x l IH]; simpl.
  - split; [constructor | lia].
  - rewrite Forall_cons, <- IH. unfold id. lia.
Qed.

Lemma max_row_le ws n :
  max_row ws <= n <-> 1 <= n /\ forall r c, is_Some (ws !! (r, c)) -> r <= n.
Proof.
  unfold max_row. rewrite max_list_le, Forall_cons, Forall_fmap, Forall_forall.
  split; intros [H1 H2]; split; try done.
  - intros r c Hs. apply (H2 (r, c)). by apply elem_of_elements, elem_of_dom.
  - intros [r c] Hin%elem_of_elements%elem_of_dom. by apply (H2 r c).
Qed.

Lemma max_column_le ws n :
  max_column ws <= n <-> 1 <= n /\ forall r c, is_Some (ws !! (r, c)) -> c <= n.
Proof.
  unfold max_column. rewrite max_list_le, Forall_cons, Forall_fmap, Forall_forall.
  split; intros [H1 H2]; split; try done.
  - intros r c Hs. apply (H2 (r, c)). by apply elem_of_elements, elem_of_dom.
  - intros [r c] Hin%elem_of_elements%elem_of_dom. by apply (H2 r c).
Qed.

Lemma max_row_insert ws r c x :
  max_row (<[(r, c) := x]> ws) = Nat.max (Nat.max (max_row ws) r) 1.
Proof.
  apply Nat.le_antisymm.
  - apply max_row_le. split; [lia|]. intros r' c' Hs.
    rewrite lookup_insert in Hs. case_decide as Heq.
    + inversion Heq. lia.
    + pose proof (proj1 (max_row_le ws (max_row ws)) (Nat.le_refl _)) as [_ H].
      specialize (H r' c' Hs). lia.
  - pose proof (proj1 (max_row_le _ _) (Nat.le_refl (max_row (<[(r, c) := x]> ws))))
      as [H1 H].
    assert (r <= max_row (<[(r, c) := x]> ws)).
    { apply (H r c). rewrite lookup_insert_eq. by eexists. }
    assert (max_row ws <= max_row (<[(r, c) := x]> ws)).
    { apply max_row_le. split; [done|]. intros r' c' Hs. apply (H r' c').
      rewrite lookup_insert. case_decide; [by eexists | done]. }
    lia.
Qed.

Lemma max_column_insert ws r c x :
  max_column (<[(r, c) := x]> ws) = Nat.max (Nat.max (max_column ws) c) 1.
Proof.
  apply Nat.le_antisymm.
  - apply max_column_le. split; [lia|]. intros r' c' Hs.
    rewrite lookup_insert in Hs. case_decide as Heq.
    + inversion Heq. lia.
    + pose proof (proj1 (max_column_le ws (max_column ws)) (Nat.le_refl _)) as [_ H].
      specialize (H r' c' Hs). lia.
  - pose proof (proj1 (max_column_le _ _)
                  (Nat.le_refl (max_column (<[(r, c) := x]> ws)))) as [H1 H].
    assert (c <= max_column (<[(r, c) := x]> ws)).
    { apply (H r c). rewrite lookup_insert_eq. by eexists. }
    assert (max_column ws <= max_column (<[(r, c) := x]> ws)).
    { apply max_column_le. split; [done|]. intros r' c' Hs. apply (H r' c').
      rewrite lookup_insert. case_decide; [by eexists | done]. }
    lia.
Qed.

Lemma max_row_ge_1 ws : 1 <= max_row ws.
Proof. by destruct (proj1 (max_row_le ws _) (Nat.le_refl _)). Qed.

Lemma max_column_ge_1 ws : 1 <= max_column ws.
Proof. by destruct (proj1 (max_column_le ws _) (Nat.le_refl _)). Qed.

End Cells.

(** ** What computations preserve *)

Section Preserves.
Context {S : Type} (R : S -> S -> Prop) `{!PreOrder R}.

Lemma preserves_ret {A} (a : A) : preserves R (ret a).
Proof. intros s. simpl. reflexivity. Qed.

Lemma preserves_raise {A} e : preserves R (raise e : M S A).
Proof. intros s. simpl. reflexivity. Qed.

Lemma preserves_lift {A} (r : result A) : preserves R (lift r).
Proof. intros s. simpl. reflexivity. Qed.

Lemma preserves_emit ev : preserves R (emit ev).
Proof. intros s. simpl. reflexivity. Qed.

Lemma preserves_log l m : preserves R (log l m).
Proof. apply preserves_emit. Qed.

Lemma preserves_gets {A} (f : S -> A) : preserves R (gets f).
Proof. intros s. simpl. reflexivity. Qed.

Lemma preserves_modify (f : S -> S) :
  (forall s, R s (f s)) -> preserves R (modify f).
Proof. intros H s. apply H. Qed.

Lemma preserves_bind {A B} (m : M S A) (k : A -> M S B) :
  preserves R m -> (forall a, preserves R (k a)) -> preserves R (m ≫= k).
Proof.
  intros Hm Hk s. unfold mbind, M_bind, bind.
  specialize (Hm s). destruct (m s) as [[[a|e] s1] l1]; simpl in *; [|done].
  specialize (Hk a s1). destruct (k a s1) as [[r s2] l2]; simpl in *.
  by etrans.
Qed.

Lemma preserves_bind_lift {A B} (r : result A) (k : A -> M S B) :
  (forall a, r = Ok a -> preserves R (k a)) -> preserves R (lift r ≫= k).
Proof.
  intros Hk s. unfold mbind, M_bind, bind, lift.
  destruct r as [a|e]; simpl; [|reflexivity].
  specialize (Hk a eq_refl s). destruct (k a s) as [[r s2] l2]; simpl in *.
  done.
Qed.

Lemma preserves_try_except {A} (m : M S A) caught h :
  preserves R m -> (forall e, preserves R (h e)) ->
  preserves R (try_except m caught h).
Proof.
  intros Hm Hh s. unfold try_except.
  specialize (Hm s). destruct (m s) as [[[a|e] s1] l1]; simpl in *; [done|].
  destruct (caught e); simpl; [|done].
  specialize (Hh e s1). destruct (h e s1) as [[r s2] l2]; simpl in *.
  by etrans.
Qed.

Lemma preserves_for_each {A} (body : A -> M S unit) (l : list A) :
  (forall x, x ∈ l -> preserves R (body x)) -> preserves R (for_each body l).
Proof.
  induction l as [|x l IH]; intros H; simpl.
  - apply preserves_ret.
  - apply preserves_bind; [apply H; left|].
    intros _. apply IH. intros y Hy. apply H. by right.
Qed.

Lemma preserves_fold_m {A B} (f : B -> A -> M S B) (b : B) (l : list A) :
  (forall b x, x ∈ l -> preserves R (f b x)) -> preserves R (fold_m f b l).
Proof.
  revert b. induction l as [|x l IH]; intros b H; simpl.
  - apply preserves_ret.
  - apply preserves_bind; [apply H; left|].
    intros b'. apply IH. intros b'' y Hy. apply H. by right.
Qed.

End Preserves.

(** ** The merge touches its own row, in the merge columns *)

Section Touches.
Implicit Types (ws : sheet) (P C : nat -> Prop).

#[export] Instance touches_preorder P C : PreOrder (touches P C).
Proof.
  split; [intros ws; constructor|].
  intros x y z Hxy Hyz.
  induction Hyz; [done|apply touches_make|apply touches_value|apply touches_fill];
    auto.
Qed.

Lemma touches_mono P C P' C' ws ws' :
  (forall r, P r -> P' r) -> (forall c, C c -> C' c) ->
  touches P C ws ws' -> touches P' C' ws ws'.
Proof.
  intros HP HC H.
  induction H; [constructor|apply touches_make|apply touches_value|apply touches_fill];
    auto.
Qed.

Lemma touches_other_row P C ws ws' r c :
  touches P C ws ws' -> ~ P r -> ws' !! (r, c) = ws !! (r, c).
Proof.
  intros H Hr.
  induction H as [ws0 | ws0 ws1 r1 c1 H IH Hr1 | ws0 ws1 r1 c1 v1 H IH Hr1 Hc1
                 | ws0 ws1 r1 c1 f1 H IH Hr1]; [done|..];
    (unfold set_value, set_fill; rewrite lookup_insert_ne; [exact IH|];
     intros [= -> ->]; done).
Qed.

Lemma touches_value_kept P C ws ws' r c :
  touches P C ws ws' -> ~ C c ->
  value (cell_at ws' r c) = value (cell_at ws r c).
Proof.
  intros H Hc.
  induction H as [ws0 | ws0 ws1 r1 c1 H IH Hr1 | ws0 ws1 r1 c1 v1 H IH Hr1 Hc1
                 | ws0 ws1 r1 c1 f1 H IH Hr1]; [done|..].
  - rewrite cell_at_insert. case_decide as Heq; [|exact IH].
    inversion Heq; subst. exact IH.
  - rewrite cell_at_set_value. case_decide as Heq; [|exact IH].
    inversion Heq; subst. done.
  - rewrite cell_at_set_fill. case_decide as Heq; [|exact IH].
    inversion Heq; subst. exact IH.
Qed.

Lemma touches_is_Some P C ws ws' k :
  touches P C ws ws' -> is_Some (ws !! k) -> is_Some (ws' !! k).
Proof.
  intros H Hk.
  induction H as [ws0 | ws0 ws1 r1 c1 H IH Hr1 | ws0 ws1 r1 c1 v1 H IH Hr1 Hc1
                 | ws0 ws1 r1 c1 f1 H IH Hr1]; [done|..];
    (unfold set_value, set_fill; rewrite lookup_insert; case_decide;
     [by eexists|by apply IH]).
Qed.

End Touches.

Section MergeFrame.
Context (E : env) (fs : gmap string cache_file).
Implicit Types (ws : sheet) (r c : nat) (P C : nat -> Prop).

Lemma fill_row_touches P C r f ws :
  P r -> touches P C ws (fill_row_with_color r f ws).
Proof.
  intros Hr. unfold fill_row_with_color.
  generalize (seq 1 (max_column ws)). intros cols.
  assert (Hgen : forall ws', touches P C ws ws' ->
            touches P C ws (foldl (fun ws c => set_fill r c f ws) ws' cols)).
  { induction cols as [|c cols IH]; intros ws' H; simpl; [done|].
    apply IH. by apply touches_fill. }
  apply Hgen. constructor.
Qed.

Lemma assign_touches P C r c v :
  P r -> C c -> preserves (touches P C) (assign r c v).
Proof.
  intros Hr Hc. unfold assign.
  apply preserves_bind; [apply _| |intros _].
  - apply preserves_modify. intros ws. apply touches_make; [constructor|done].
  - apply preserves_bind; [apply _|apply preserves_lift; apply _|intros x].
    apply preserves_modify. intros ws. apply touches_value; [constructor|done..].
Qed.

Lemma write_cwe_touches P r cve_info :
  P r -> preserves (touches P (fun c => c = 5)) (write_cwe r cve_info).
Proof.
  intros Hr. unfold write_cwe.
  apply preserves_bind_lift; [apply _|]. intros [] _; [|apply preserves_ret; apply _].
  do 5 (apply preserves_bind_lift; [apply _|]; intros ? _).
  apply preserves_bind_lift; [apply _|]. intros c [= <-].
  by apply assign_touches.
Qed.

Lemma cvss_step_touches P r cvss_dicts scores version :
  P r -> version ∈ cvss_versions ->
  preserves (touches P (fun c => 6 <= c <= 13))
            (cvss_step E r cvss_dicts scores version).
Proof.
  intros Hr Hv. unfold cvss_versions in Hv.
  assert (Hset : forall c v, 6 <= c <= 13 ->
            preserves (touches P (fun c => 6 <= c <= 13))
                      (modify (set_value r c v))).
  { intros c v Hc. apply preserves_modify. intros ws.
    apply touches_value; [apply touches_refl|done..]. }
  repeat (apply elem_of_cons in Hv as [-> | Hv]); [..|by apply elem_of_nil in Hv];
    unfold cvss_step;
    (apply preserves_bind_lift; [apply _|]; intros [] _;
     [|apply preserves_ret; apply _]);
    do 6 (apply preserves_bind_lift; [apply _|]; intros ? _);
    (apply preserves_bind_lift; [apply _|]; intros c1 Hc1;
     vm_compute in Hc1; injection Hc1 as <-);
    (apply preserves_bind; [apply _|apply Hset; lia|intros _]);
    (apply preserves_bind_lift; [apply _|]; intros ? _);
    (apply preserves_bind_lift; [apply _|]; intros c2 Hc2;
     vm_compute in Hc2; injection Hc2 as <-);
    (apply preserves_bind;
       [apply _|apply Hset; lia|intros _; apply preserves_ret; apply _]).
Qed.

Lemma write_scores_touches P r cveid cvss_dicts :
  P r ->
  preserves (touches P (fun c => 6 <= c <= 13))
            (write_scores E r cveid cvss_dicts).
Proof.
  intros Hr. unfold write_scores.
  apply preserves_bind; [apply _| |intros scores].
  - apply preserves_fold_m; [apply _|]. intros. by apply cvss_step_touches.
  - match goal with |- context [if ?b then _ else _] => destruct b end.
    + apply preserves_bind; [apply _|apply preserves_log; apply _|intros _].
      apply preserves_modify. intros ws. by apply fill_row_touches.
    + apply preserves_log; apply _.
Qed.

Lemma preserves_weaken {A : Type} (R R' : sheet -> sheet -> Prop) (m : M sheet A) :
  (forall x y, R x y -> R' x y) -> preserves R m -> preserves R' m.
Proof. intros HR H s. apply HR, H. Qed.

Lemma merge_record_touches P r cveid filename :
  P r -> preserves (touches P merge_column) (merge_record E fs r cveid filename).
Proof.
  intros Hr. unfold merge_record.
  do 2 (apply preserves_bind_lift; [apply _|]; intros ? _).
  match goal with |- context [if ?b then _ else _] => destruct b end;
    [apply preserves_log; apply _|].
  do 5 (apply preserves_bind_lift; [apply _|]; intros ? _).
  apply preserves_bind; [apply _| |intros _].
  - eapply preserves_weaken; [|by apply write_cwe_touches].
    intros x y. apply touches_mono; [done|]. unfold merge_column. lia.
  - eapply preserves_weaken; [|by apply write_scores_touches].
    intros x y. apply touches_mono; [done|]. unfold merge_column. lia.
Qed.

Lemma row_value_preserves (R : sheet -> sheet -> Prop) `{!PreOrder R} width r i :
  preserves R (row_value width r i).
Proof.
  unfold row_value. destruct (i <? width);
    [apply preserves_gets | apply preserves_raise]; apply _.
Qed.

Lemma merge_row_touches P width r :
  P r -> preserves (touches P merge_column) (merge_row E fs width r).
Proof.
  intros Hr. unfold merge_row.
  apply preserves_bind_lift; [apply _|]; intros c _.
  apply preserves_bind; [apply _|apply row_value_preserves; apply _|intros cveid].
  match goal with |- context [if ?b then _ else _] => destruct b end;
    [apply preserves_log; apply _|].
  apply preserves_try_except; [apply _|by apply merge_record_touches|].
  intros e. apply preserves_log; apply _.
Qed.

Lemma merge_rows_touches ws0 :
  preserves (touches (fun r => 2 <= r) merge_column) (merge_rows E fs ws0).
Proof.
  unfold merge_rows. apply preserves_for_each; [apply _|].
  intros r Hr. apply merge_row_touches.
  unfold iter_rows in Hr. apply elem_of_seq in Hr. lia.
Qed.

End MergeFrame.

(** ** The fetcher *)

Lemma fetch_loop_S (E : env) (id filename : string) (fuel attempt : nat) :
  fetch_loop E id filename (S fuel) attempt =
  if attempt <? max_attempts then
    a ← request E id;
    match a with
    | Stored body =>
        write_file filename (Json body) ;; log INFO (SavedFile filename)
    | RequestException e =>
        log ERROR (RequestFailed e (attempt + 1) max_attempts) ;;
        (if attempt + 1 <? max_attempts then sleep 1
         else log ERROR (FetchFailed max_attempts)) ;;
        fetch_loop E id filename fuel (attempt + 1)
    | WriteIOError e => log ERROR (FileIOError e)
    end
  else ret tt.
Proof. reflexivity. Qed.

#[local] Arguments fetch_loop : simpl never.

(** The loop ends by its own test: more fuel changes nothing. *)
Lemma fetch_loop_fuel (E : env) (id filename : string) (fuel attempt : nat)
    (w : world) :
  max_attempts - attempt < fuel ->
  fetch_loop E id filename (S fuel) attempt w =
  fetch_loop E id filename fuel attempt w.
Proof.
  revert attempt w. induction fuel as [|fuel IH]; intros attempt w Hlt; [lia|].
  rewrite (fetch_loop_S E id filename fuel attempt),
          (fetch_loop_S E id filename (S fuel) attempt).
  destruct (attempt <? max_attempts) eqn:Ha; [|reflexivity].
  apply Nat.ltb_lt in Ha.
  unfold_m. simpl.
  destruct (net E (requests w) id); try reflexivity.
  destruct (attempt + 1 <? max_attempts) eqn:Hb; simpl.
  - rewrite IH; [reflexivity|]. unfold max_attempts in *. lia.
  - apply Nat.ltb_ge in Hb. rewrite IH; [reflexivity|].
    unfold max_attempts in *. lia.
Qed.

Section FetchPreserves.
Context (R : world -> world -> Prop) `{!PreOrder R}.
Context (R_mkdir : forall w, R w (World true (files w) (docs w) (requests w))).
Context (R_write : forall w p f,
              R w (World (cache_dir w) (<[p := f]> (files w)) (docs w)
                         (requests w))).
Context (R_request : forall w,
              R w (World (cache_dir w) (files w) (docs w) (S (requests w)))).

Lemma request_preserves E id : preserves R (request E id).
Proof.
  unfold request.
  apply preserves_bind; [apply _|apply preserves_emit; apply _|intros _].
  apply preserves_bind; [apply _|apply preserves_gets; apply _|intros n].
  apply preserves_bind; [apply _| |intros _; apply preserves_ret; apply _].
  apply preserves_modify. apply R_request.
Qed.

Lemma fetch_loop_preserves E id filename fuel attempt :
  preserves R (fetch_loop E id filename fuel attempt).
Proof.
  revert attempt. induction fuel as [|fuel IH]; intros attempt.
  - apply preserves_ret; apply _.
  - rewrite fetch_loop_S. destruct (attempt <? max_attempts);
      [|apply preserves_ret; apply _].
    apply preserves_bind; [apply _|apply request_preserves|intros [e|e|body]].
    + apply preserves_bind; [apply _|apply preserves_log; apply _|intros _].
      apply preserves_bind; [apply _| |intros _; apply IH].
      destruct (attempt + 1 <? max_attempts);
        [apply preserves_emit|apply preserves_log]; apply _.
    + apply preserves_log; apply _.
    + apply preserves_bind; [apply _| |intros _; apply preserves_log; apply _].
      apply preserves_modify. intros w. apply R_write.
Qed.

Lemma getCVEInfo_preserves E CVEID : preserves R (getCVEInfo E CVEID).
Proof.
  unfold getCVEInfo.
  apply preserves_bind; [apply _|apply preserves_gets; apply _|intros isdir].
  apply preserves_bind; [apply _| |intros _].
  { destruct (negb isdir); [|apply preserves_ret; apply _].
    apply preserves_bind; [apply _|apply preserves_log; apply _|intros _].
    apply preserves_modify. apply R_mkdir. }
  apply preserves_bind; [apply _|apply preserves_gets; apply _|intros present].
  destruct (negb present); [|apply preserves_log; apply _].
  apply preserves_bind; [apply _|apply preserves_log; apply _|intros _].
  apply fetch_loop_preserves.
Qed.

Lemma fetch_all_preserves E cve_ids : preserves R (fetch_all E cve_ids).
Proof.
  unfold fetch_all. apply preserves_for_each; [apply _|]. intros id _.
  apply preserves_try_except; [apply _|apply getCVEInfo_preserves|].
  intros e. apply preserves_log; apply _.
Qed.

End FetchPreserves.

(** The fetches leave the saved workbooks alone. *)
Lemma fetch_all_docs E cve_ids w : docs (fetch_all E cve_ids w).1.2 = docs w.
Proof.
  assert (HP : PreOrder (fun w w' : world => docs w' = docs w)).
  { split; [done|]. intros x y z Hxy Hyz. congruence. }
  exact (@fetch_all_preserves _ HP (fun _ => eq_refl) (fun _ _ _ => eq_refl)
           (fun _ => eq_refl) E cve_ids w).
Qed.

(** Every fetch is observed and none of its failures leaves [fetch_all]. *)
Lemma fetch_all_ok E cve_ids w : (fetch_all E cve_ids w).1.1 = Ok tt.
Proof.
  unfold fetch_all. revert w.
  induction cve_ids as [|id ids IH]; intros w; simpl; [done|].
  unfold mbind, M_bind, bind, try_except.
  destruct (getCVEInfo E id w) as [[[[]|e] w1] l1]; simpl.
  - specialize (IH w1).
    destruct (for_each _ ids w1) as [[r w2] l2]; simpl in *. done.
  - specialize (IH w1).
    destruct (for_each _ ids w1) as [[r w2] l2]; simpl in *. done.
Qed.

(** ** update_excel_with_cve_info, step by step *)

Lemma read_ids_ok ws width (rows : list nat) :
  4 <= width \/ rows = [] ->
  map_m (fun r => row_value width r 3) rows ws =
  (Ok (map (fun r => value (cell_at ws r 4)) rows), ws, []).
Proof.
  intros [Hw | ->]; [|done]. induction rows as [|r rows IH]; simpl; [done|].
  unfold mbind, M_bind, bind. unfold row_value at 1.
  destruct (3 <? width) eqn:Hlt; [|apply Nat.ltb_ge in Hlt; lia].
  unfold gets. rewrite IH. done.
Qed.

Lemma read_ids_raises ws width (rows : list nat) :
  width < 4 -> rows <> [] ->
  map_m (fun r => row_value width r 3) rows ws = (Raise IndexError, ws, []).
Proof.
  intros Hw Hne. destruct rows as [|r rows]; [done|]. simpl.
  unfold mbind, M_bind, bind, row_value. simpl.
  destruct (3 <? width) eqn:Hlt; [|done]. apply Nat.ltb_lt in Hlt. lia.
Qed.

(** What [update_excel_with_cve_info] does to a workbook that is there and
    at least four columns wide, or without data rows: the fetches, then
    the merge on the workbook in memory, then the save if the merge did
    not raise. *)
Lemma update_excel_unfold E basename w ws :
  docs w !! xlsx_path basename = Some ws ->
  4 <= max_column ws \/ iter_rows ws 2 = [] ->
  let ids := map (fun r => value (cell_at ws r 4)) (iter_rows ws 2) in
  let w1 := (fetch_all E ids w).1.2 in
  let l1 := (fetch_all E ids w).2 in
  update_excel_with_cve_info E basename w =
  match merge_rows E (files w1) ws ws with
  | (Ok _, merged, l2) =>
      (Ok tt,
       World (cache_dir w1) (files w1) (<[xlsx_path basename := merged]> (docs w1))
             (requests w1),
       l1 ++ l2)
  | (Raise e, _, l2) => (Raise e, w1, l1 ++ l2)
  end.
Proof.
  intros Hdoc Hwidth ids w1 l1.
  unfold update_excel_with_cve_info.
  unfold mbind at 1. unfold M_bind, bind at 1. unfold gets at 1. rewrite Hdoc.
  change (column "CVE") with (Ok 4 : result nat).
  unfold mbind, M_bind, bind, lift, with_sheet. simpl.
  rewrite (read_ids_ok ws (max_column ws) (iter_rows ws 2) Hwidth). simpl.
  fold ids.
  pose proof (fetch_all_ok E ids w) as Hok.
  subst w1 l1.
  destruct (fetch_all E ids w) as [[r w1] l1]; simpl in *. subst r.
  unfold gets. simpl.
  destruct (merge_rows E (files w1) ws ws) as [[[[]|e] merged] l2]; simpl.
  - unfold try_except, save, modify. simpl. by rewrite app_nil_r.
  - done.
Qed.

(** A workbook narrower than the CVE column, with data rows: reading the
    identifiers raises and nothing else happens. *)
Lemma update_excel_narrow E basename w ws :
  docs w !! xlsx_path basename = Some ws ->
  max_column ws < 4 -> iter_rows ws 2 <> [] ->
  update_excel_with_cve_info E basename w = (Raise IndexError, w, []).
Proof.
  intros Hdoc Hwidth Hrows.
  unfold update_excel_with_cve_info.
  unfold mbind at 1. unfold M_bind, bind at 1. unfold gets at 1. rewrite Hdoc.
  change (column "CVE") with (Ok 4 : result nat).
  unfold mbind, M_bind, bind, lift, with_sheet. simpl.
  by rewrite (read_ids_raises ws (max_column ws) (iter_rows ws 2) Hwidth Hrows).
Qed.

Lemma update_excel_missing E basename w :
  docs w !! xlsx_path basename = None ->
  update_excel_with_cve_info E basename w =
  (Ok tt, w, [Log ERROR (NoExcelFile (xlsx_path basename))]).
Proof.
  intros Hdoc. unfold update_excel_with_cve_info.
  unfold mbind, M_bind, bind, gets. by rewrite Hdoc.
Qed.

(** ** The claims about the fetcher *)



(** C4.  When the identifier has a cache file, [getCVEInfo] sends no
    request and does not sleep, leaves every file of the cache as it was,
    logs that the file exists, and returns. *)
Theorem getCVEInfo_cached_is_a_noop
    (E : env) (w : world) (CVEID : xl_value) (f : cache_file) :
  files w !! cache_filename CVEID = Some f ->
  getCVEInfo E CVEID w =
    (Ok tt,
     World true (files w) (docs w) (requests w),
     (if cache_dir w then [] else [Log INFO (CreatingFolder CACHE_PATH)]) ++
     [Log INFO (FileExists (cache_filename CVEID))]).
Proof.
  intros Hf. unfold getCVEInfo. unfold_m.
  destruct w as [cd fs ds n]; simpl in *.
  destruct cd; simpl; rewrite Hf; reflexivity.
Qed.

Lemma getCVEInfo_cached_witness :
  getCVEInfo Sample.down (XStr "CVE-2021-44228")
             (World true {[ "cache/CVE-2021-44228.json" := Json Sample.log4shell ]}
                    ∅ 0) =
    (Ok tt,
     World true {[ "cache/CVE-2021-44228.json" := Json Sample.log4shell ]} ∅ 0,
     [Log INFO (FileExists "cache/CVE-2021-44228.json")]).
Proof.
  exact (getCVEInfo_cached_is_a_noop Sample.down
           (World true {[ "cache/CVE-2021-44228.json" := Json Sample.log4shell ]}
                  ∅ 0)
           (XStr "CVE-2021-44228") (Json Sample.log4shell) eq_refl).
Defined.

(** ** The claims about the merge *)

(** C5.  Whatever the workbooks and the cache hold, and whether it returns
    or raises, [update_excel_with_cve_info] leaves the value of every cell
    outside the columns CWE to V40Vector as it was, in every saved
    workbook: the PluginID, Risk, Name and CVE cells are never
    overwritten. *)
Theorem merge_keeps_the_finding_cells
    (E : env) (basename : string) (w : world) (path : string) (r c : nat) :
  ~ merge_column c ->
  doc_value (update_excel_with_cve_info E basename w).1.2 path r c =
  doc_value w path r c.
Proof.
  intros Hc. unfold doc_value.
  destruct (docs w !! xlsx_path basename) as [ws|] eqn:Hdoc;
    [|by rewrite update_excel_missing].
  destruct (decide (4 <= max_column ws \/ iter_rows ws 2 = [])) as [Hw|Hw].
  - rewrite (update_excel_unfold E basename w ws Hdoc Hw).
    set (ids := map (fun r => value (cell_at ws r 4)) (iter_rows ws 2)).
    pose proof (fetch_all_docs E ids w) as Hdocs.
    pose proof (merge_rows_touches E (files (fetch_all E ids w).1.2) ws ws) as Ht.
    simpl in Ht.
    destruct (merge_rows E (files (fetch_all E ids w).1.2) ws ws)
      as [[[[]|e] merged] l2]; simpl in *.
    + rewrite Hdocs. destruct (decide (path = xlsx_path basename)) as [->|Hne].
      * rewrite lookup_insert_eq, Hdoc. by apply (touches_value_kept _ _ _ _ _ _ Ht).
      * by rewrite lookup_insert_ne.
    + by rewrite Hdocs.
  - rewrite (update_excel_narrow E basename w ws Hdoc); [done|lia|].
    intros Hnil. apply Hw. by right.
Qed.

Lemma merge_keeps_the_finding_cells_witness :
  doc_value
    (update_excel_with_cve_info (Sample.answers Sample.log4shell) "scan"
       (World false ∅ {[ "scan_result.xlsx" := Sample.two_rows ]} 0)).1.2
    "scan_result.xlsx" 2 4 =
  doc_value (World false ∅ {[ "scan_result.xlsx" := Sample.two_rows ]} 0)
    "scan_result.xlsx" 2 4.
Proof.
  apply (merge_keeps_the_finding_cells (Sample.answers Sample.log4shell) "scan"
           (World false ∅ {[ "scan_result.xlsx" := Sample.two_rows ]} 0)
           "scan_result.xlsx" 2 4).
  unfold merge_column. lia.
Defined.

Section MergeRow.
Context (E : env) (fs : gmap string cache_file).
Implicit Types (ws : sheet) (r c width : nat).

Lemma merge_row_narrow width r ws :
  width < 4 -> merge_row E fs width r ws = (Raise IndexError, ws, []).
Proof.
  intros Hw. unfold merge_row. change (column "CVE") with (Ok 4 : result nat).
  unfold mbind, M_bind, bind, lift, row_value. simpl.
  destruct (3 <? width) eqn:Hlt; [|done]. apply Nat.ltb_lt in Hlt. lia.
Qed.

(** The row's identifier is read, then the cache decides. *)
Lemma merge_row_unfold width r ws :
  4 <= width ->
  let cveid := value (cell_at ws r 4) in
  let filename := cache_filename cveid in
  merge_row E fs width r ws =
  if negb (bool_decide (is_Some (fs !! filename)))
  then (Ok tt, ws, [Log WARNING (NoCacheFile filename)])
  else try_except (merge_record E fs r cveid filename) caught_by_merge
                  (fun e => log ERROR (JsonError filename e)) ws.
Proof.
  intros Hw cveid filename. unfold merge_row.
  change (column "CVE") with (Ok 4 : result nat).
  unfold mbind, M_bind, bind, lift, row_value. simpl.
  destruct (3 <? width) eqn:Hlt; [|apply Nat.ltb_ge in Hlt; lia].
  unfold gets. fold cveid. fold filename.
  destruct (negb (bool_decide (is_Some (fs !! filename)))); simpl; [done|].
  destruct (try_except _ _ _ ws) as [[res ws'] l]. done.
Qed.

Lemma merge_row_uncached width r ws :
  4 <= width ->
  fs !! cache_filename (value (cell_at ws r 4)) = None ->
  merge_row E fs width r ws =
  (Ok tt, ws,
   [Log WARNING (NoCacheFile (cache_filename (value (cell_at ws r 4))))]).
Proof.
  intros Hw Hnone. rewrite merge_row_unfold by done. simpl.
  rewrite Hnone. rewrite bool_decide_eq_false_2; [done|].
  by intros [? ?].
Qed.


(** A row without a cache file keeps its cells through the whole loop. *)
Lemma for_each_keeps_uncached_row width r ws rows ws_i :
  fs !! cache_filename (value (cell_at ws r 4)) = None ->
  (forall c, ws_i !! (r, c) = ws !! (r, c)) ->
  forall c, (for_each (merge_row E fs width) rows ws_i).1.2 !! (r, c) =
            ws !! (r, c).
Proof.
  intros Hnone. revert ws_i.
  induction rows as [|x rows IH]; intros ws_i Hrow c; simpl; [done|].
  unfold mbind, M_bind, bind.
  assert (Hstep : forall c, (merge_row E fs width x ws_i).1.2 !! (r, c) =
                            ws !! (r, c)).
  { intros c'. destruct (decide (x = r)) as [->|Hne].
    - destruct (decide (4 <= width)) as [Hw|Hw].
      + rewrite merge_row_uncached; [done..|].
        unfold cell_at. by rewrite Hrow.
      + rewrite merge_row_narrow by lia. done.
    - rewrite <- Hrow.
      apply (touches_other_row (fun r' => r' = x) merge_column); [|congruence].
      by apply (merge_row_touches E fs). }
  destruct (merge_row E fs width x ws_i) as [[[[]|e] ws_j] l1]; simpl in *.
  - specialize (IH ws_j Hstep c).
    destruct (for_each _ rows ws_j) as [[res ws_k] l2]. done.
  - done.
Qed.

End MergeRow.

(** C6.  A data row whose identifier has no cache file: its pass through
    the merge logs one warning, returns, and leaves the worksheet as it
    was, so that neither a score nor the marker is written and no fill is
    applied; and after the whole loop every cell of that row is still what
    it was. *)
Theorem uncached_row_is_left_untouched
    (E : env) (fs : gmap string cache_file) (ws : sheet) (r : nat) :
  4 <= max_column ws ->
  fs !! cache_filename (value (cell_at ws r 4)) = None ->
  merge_row E fs (max_column ws) r ws =
    (Ok tt, ws,
     [Log WARNING (NoCacheFile (cache_filename (value (cell_at ws r 4))))]) /\
  forall c, (merge_rows E fs ws ws).1.2 !! (r, c) = ws !! (r, c).
Proof.
  intros Hw Hnone. split.
  - by apply merge_row_uncached.
  - intros c. unfold merge_rows. by apply for_each_keeps_uncached_row.
Qed.

Lemma uncached_row_is_left_untouched_witness :
  merge_row Sample.down ∅ (max_column Sample.two_rows) 2 Sample.two_rows =
    (Ok tt, Sample.two_rows, [Log WARNING (NoCacheFile "cache/CVE-A.json")]) /\
  forall c, (merge_rows Sample.down ∅ Sample.two_rows Sample.two_rows).1.2
              !! (2, c) = Sample.two_rows !! (2, c).
Proof.
  apply (uncached_row_is_left_untouched Sample.down ∅ Sample.two_rows 2).
  - vm_compute. lia.
  - reflexivity.
Defined.




(** C1.  The specification's example, run through the whole pipeline: the
    score is written and the row is not filled, but the vector keeps its
    prefix [CVSS:3.1/], since the text that is removed is [CVSS:V31/]. *)
Theorem scheme_prefix_is_kept :
  let w := (process_csv_file (Sample.answers Sample.log4shell) "csv/scan.csv"
              (Some [Sample.scan_row]) Sample.fresh).1.2 in
  doc_value w "scan_result.xlsx" 2 4 = XStr "CVE-2021-44228" /\
  doc_value w "scan_result.xlsx" 2 10 = XStr "10.0" /\
  doc_value w "scan_result.xlsx" 2 11 =
    XStr "CVSS:3.1/AV:N/AC:L/PR:N/UI:N/S:C/C:H/I:H/A:H" /\
  replace ("CVSS:" +:+ "V31" +:+ "/") "" Sample.vector31 = Sample.vector31 /\
  replace "CVSS:3.1/" "" Sample.vector31 = "AV:N/AC:L/PR:N/UI:N/S:C/C:H/I:H/A:H".
Proof. vm_compute. done. Qed.

(** ** Rows without scores *)

Section Fill.
Implicit Types (ws : sheet) (r c : nat) (cols : list nat).

Lemma foldl_set_fill_lookup r f cols ws r' c' :
  foldl (fun ws c => set_fill r c f ws) ws cols !! (r', c') =
  if decide (r' = r /\ c' ∈ cols) then Some (Cell (value (cell_at ws r' c')) f)
  else ws !! (r', c').
Proof.
  revert ws. induction cols as [|c cols IH]; intros ws; simpl.
  - case_decide as H; [|done]. destruct H as [_ H]. by apply elem_of_nil in H.
  - rewrite IH, cell_at_set_fill, lookup_set_fill.
    destruct (decide ((r, c) = (r', c'))) as [[= <- <-]|Hne].
    + rewrite (decide_True (P := r = r /\ c ∈ c :: cols)) by (split; [done|left]).
      by destruct (decide (r = r /\ c ∈ cols)).
    + apply decide_ext. split; intros [-> Hin]; (split; [done|]).
      * by right.
      * apply elem_of_cons in Hin as [->|Hin]; [done|exact Hin].
Qed.

Lemma foldl_set_fill_cell r f cols ws r' c' :
  cell_at (foldl (fun ws c => set_fill r c f ws) ws cols) r' c' =
  if decide (r' = r /\ c' ∈ cols) then Cell (value (cell_at ws r' c')) f
  else cell_at ws r' c'.
Proof.
  unfold cell_at at 1. rewrite foldl_set_fill_lookup. by case_decide.
Qed.

Lemma foldl_set_fill_max_column r f cols ws :
  Forall (fun c => c <= max_column ws) cols ->
  max_column (foldl (fun ws c => set_fill r c f ws) ws cols) = max_column ws.
Proof.
  revert ws. induction cols as [|c cols IH]; intros ws Hall; simpl; [done|].
  apply Forall_cons in Hall as [Hc Hall].
  assert (Hmc : max_column (set_fill r c f ws) = max_column ws).
  { unfold set_fill. rewrite max_column_insert.
    pose proof (max_column_ge_1 ws). lia. }
  rewrite IH; [done|]. by rewrite Hmc.
Qed.

Lemma fill_row_cell r f ws r' c' :
  cell_at (fill_row_with_color r f ws) r' c' =
  if decide (r' = r /\ 1 <= c' <= max_column ws)
  then Cell (value (cell_at ws r' c')) f
  else cell_at ws r' c'.
Proof.
  unfold fill_row_with_color. rewrite foldl_set_fill_cell.
  destruct (decide (r' = r /\ c' ∈ seq 1 (max_column ws))) as [[-> Hin]|Hn].
  - apply elem_of_seq in Hin. rewrite decide_True; [done|]. split; [done|lia].
  - rewrite decide_False; [done|]. intros [-> Hc]. apply Hn. split; [done|].
    apply elem_of_seq. lia.
Qed.

Lemma fill_row_max_column r f ws :
  max_column (fill_row_with_color r f ws) = max_column ws.
Proof.
  unfold fill_row_with_color. apply foldl_set_fill_max_column.
  apply Forall_forall. intros c Hin%elem_of_seq. lia.
Qed.

Lemma fill_row_highlighted r ws :
  highlighted (fill_row_with_color r FALLBACK_FILL ws) r.
Proof.
  intros c Hc. rewrite fill_row_max_column in Hc.
  rewrite fill_row_cell. by rewrite decide_True.
Qed.

Lemma fill_row_value r f ws r' c' :
    value (cell_at (fill_row_with_color r f ws) r' c') = value (cell_at ws r' c').
  Proof. rewrite fill_row_cell. by case_decide. Qed.

End Fill.

Lemma cvss_step_absent E r cvss_dicts scores key label ws :
  contains key cvss_dicts = Ok false ->
  cvss_step E r cvss_dicts scores (key, label) ws = (Ok scores, ws, []).
Proof.
  intros Hkey. unfold cvss_step, mbind, M_bind, bind, lift. by rewrite Hkey.
Qed.

Lemma fold_m_cvss_absent E r cvss_dicts scores versions ws :
  (forall version, version ∈ versions -> contains version.1 cvss_dicts = Ok false) ->
  fold_m (cvss_step E r cvss_dicts) scores versions ws = (Ok scores, ws, []).
Proof.
  induction versions as [|[key label] versions IH]; intros Habs; [done|].
  change (fold_m (cvss_step E r cvss_dicts) scores ((key, label) :: versions) ws)
    with ((b ← cvss_step E r cvss_dicts scores (key, label);
           fold_m (cvss_step E r cvss_dicts) b versions) ws).
  unfold mbind, M_bind, bind.
  rewrite cvss_step_absent by (apply (Habs (key, label)); left).
  rewrite IH; [done|]. intros v Hv. apply Habs. by right.
Qed.

(** C2, as the code has it.  A row whose cache file is a response.  When
    the response has no vulnerability entry, the row's pass logs a warning
    and leaves the worksheet as it was.  When it has an entry whose metrics
    hold none of the four versions, and whose weakness, if any, can be
    written, the pass fills every cell of the row and leaves the values of
    the eight score and vector cells as they were. *)
Theorem row_without_scores
    (E : env) (fs : gmap string cache_file) (width : nat) (ws : sheet)
    (r : nat) (json_dict vulnerabilities : json) :
  let cveid := value (cell_at ws r 4) in
  let filename := cache_filename cveid in
  4 <= width ->
  fs !! filename = Some (Json json_dict) ->
  get json_dict "vulnerabilities" (JArr []) = Ok vulnerabilities ->
  (truthy vulnerabilities = false ->
   merge_row E fs width r ws =
     (Ok tt, ws, [Log WARNING (NoVulnerabilities filename)])) /\
  (forall v0 cve cvss_dicts ws1,
     truthy vulnerabilities = true ->
     item0 vulnerabilities = Ok v0 ->
     get v0 "cve" (JObj []) = Ok cve ->
     get cve "metrics" (JObj []) = Ok cvss_dicts ->
     (forall version, version ∈ cvss_versions ->
                      contains version.1 cvss_dicts = Ok false) ->
     write_cwe r cve ws = (Ok tt, ws1, []) ->
     let ws' := fill_row_with_color r FALLBACK_FILL ws1 in
     merge_row E fs width r ws =
       (Ok tt, ws', [Log ERROR (NoBaseScores (fstr cveid))]) /\
     highlighted ws' r /\
     forall c, 6 <= c <= 13 ->
               value (cell_at ws' r c) = value (cell_at ws r c)).
Proof.
  intros cveid filename Hw Hf Hget.
  assert (Hunfold : merge_row E fs width r ws =
            try_except (merge_record E fs r cveid filename) caught_by_merge
                       (fun e => log ERROR (JsonError filename e)) ws).
  { rewrite merge_row_unfold by done. simpl. fold cveid. fold filename.
    rewrite Hf. by rewrite bool_decide_eq_true_2 by by eexists. }
  split.
  - intros Hfalse. rewrite Hunfold.
    unfold try_except, merge_record, mbind, M_bind, bind, lift, load_json.
    rewrite Hf, Hget, Hfalse. done.
  - intros v0 cve cvss_dicts ws1 Htrue Hv0 Hcve Hmetrics Habs Hcwe ws'.
    split; [|split].
    + rewrite Hunfold.
      unfold try_except, merge_record, mbind, M_bind, bind, lift, load_json.
      rewrite Hf, Hget, Htrue, Hv0, Hcve, Hmetrics. simpl.
      rewrite Hcwe. unfold write_scores, mbind, M_bind, bind.
      rewrite (fold_m_cvss_absent E r cvss_dicts initial_scores cvss_versions ws1 Habs).
      done.
    + apply fill_row_highlighted.
    + intros c Hc. unfold ws'. rewrite fill_row_value.
      pose proof (write_cwe_touches (fun r' => r' = r) r cve eq_refl ws) as Ht.
      rewrite Hcwe in Ht. simpl in Ht.
      apply (touches_value_kept _ _ _ _ _ _ Ht). lia.
Qed.

Lemma row_without_scores_witness :
  merge_row Sample.down {[ "cache/CVE-A.json" := Json Sample.no_entries ]} 13 2
            Sample.two_rows =
    (Ok tt, Sample.two_rows,
     [Log WARNING (NoVulnerabilities "cache/CVE-A.json")]) /\
  (merge_row Sample.down {[ "cache/CVE-A.json" := Json Sample.no_metrics ]} 13 2
             Sample.two_rows =
     (Ok tt, fill_row_with_color 2 FALLBACK_FILL Sample.two_rows,
      [Log ERROR (NoBaseScores "CVE-A")]) /\
   highlighted (fill_row_with_color 2 FALLBACK_FILL Sample.two_rows) 2 /\
   forall c, 6 <= c <= 13 ->
     value (cell_at (fill_row_with_color 2 FALLBACK_FILL Sample.two_rows) 2 c) =
     value (cell_at Sample.two_rows 2 c)).
Proof.
  split.
  - apply (row_without_scores Sample.down
             {[ "cache/CVE-A.json" := Json Sample.no_entries ]} 13
             Sample.two_rows 2 Sample.no_entries (JArr []));
      [lia|reflexivity..].
  - refine (proj2 (row_without_scores Sample.down
                     {[ "cache/CVE-A.json" := Json Sample.no_metrics ]} 13
                     Sample.two_rows 2 Sample.no_metrics
                     (JArr [JObj [("cve", JObj [("id", JStr "CVE-2021-44228");
                                                ("metrics", JObj [])])] ])
                     _ _ _)
                  (JObj [("cve", JObj [("id", JStr "CVE-2021-44228");
                                       ("metrics", JObj [])])])
                  (JObj [("id", JStr "CVE-2021-44228"); ("metrics", JObj [])])
                  (JObj []) Sample.two_rows _ _ _ _ _ _);
      try reflexivity; lia.
Defined.

(** C2, as stated, fails.  After the whole pipeline on the specification's
    example with a response without entries, the row has no fill and its
    score cells are empty; with an entry without metrics the row is filled
    but its score cells are empty all the same: the marker is never written
    to a cell. *)
Lemma empty_response_row_is_not_highlighted :
  let sheet_after (body : json) : sheet :=
    default ∅ (docs (process_csv_file (Sample.answers body) "csv/scan.csv"
                       (Some [Sample.scan_row]) Sample.fresh).1.2
                 !! "scan_result.xlsx") in
  (fill (cell_at (sheet_after Sample.no_entries) 2 1) = NoFill /\
   value (cell_at (sheet_after Sample.no_entries) 2 6) = XNone /\
   ~ highlighted (sheet_after Sample.no_entries) 2 /\
   ~ scores_not_available (sheet_after Sample.no_entries) 2) /\
  (fill (cell_at (sheet_after Sample.no_metrics) 2 1) = FALLBACK_FILL /\
   value (cell_at (sheet_after Sample.no_metrics) 2 6) = XNone /\
   ~ scores_not_available (sheet_after Sample.no_metrics) 2).
Proof.
  intros sheet_after. repeat split; try (vm_compute; reflexivity).
  - intros H. specialize (H 1). 
    assert (Hc : 1 <= 1 <= max_column (sheet_after Sample.no_entries)).
    { vm_compute. lia. }
    specialize (H Hc). vm_compute in H. discriminate.
  - intros H. specialize (H 6 ltac:(lia)). vm_compute in H. discriminate.
  - intros H. specialize (H 6 ltac:(lia)). vm_compute in H. discriminate.
Qed.

(** ** What write_to_excel writes *)

Section WriteRows.
Implicit Types (ws : sheet) (r c : nat) (data : list xl_value)
               (rows : list (list xl_value)).

Lemma max_row_attained ws :
  1 < max_row ws -> exists c, is_Some (ws !! (max_row ws, c)).
Proof.
  intros Hgt.
  assert (Hin : max_row ws ∈ 1 :: (fst <$> elements (dom ws))).
  { unfold max_row. by apply max_list_elem_of. }
  apply elem_of_cons in Hin as [Heq|Hin]; [lia|].
  apply list_elem_of_fmap in Hin as [[r c] [Hr Hin]]. simpl in Hr.
  exists c. rewrite Hr. by apply elem_of_dom, elem_of_elements.
Qed.

Lemma max_row_bound ws r c : is_Some (ws !! (r, c)) -> r <= max_row ws.
Proof.
  intros Hs. by apply (proj2 (proj1 (max_row_le ws (max_row ws)) (Nat.le_refl _))) in Hs.
Qed.

Lemma max_column_bound ws r c : is_Some (ws !! (r, c)) -> c <= max_column ws.
Proof.
  intros Hs.
  by apply (proj2 (proj1 (max_column_le ws (max_column ws)) (Nat.le_refl _))) in Hs.
Qed.

(** The cells of one written row, for values laid out from column [m]. *)
Lemma write_from_lookup m r data ws r' c' :
  foldl (fun ws '(col_idx, v) => set_value r col_idx v ws) ws
        (zip (seq m (length data)) data) !! (r', c') =
  if decide (r' = r /\ m <= c') then
    match data !! (c' - m) with
    | Some v => Some (Cell v (fill (cell_at ws r' c')))
    | None => ws !! (r', c')
    end
  else ws !! (r', c').
Proof.
  revert m ws. induction data as [|x data IH]; intros m ws; simpl.
  - by case_decide.
  - rewrite IH, lookup_set_value.
    destruct (decide (r' = r /\ m <= c')) as [[-> Hm]|Hn].
    + destruct (decide (c' = m)) as [->|Hne].
      * rewrite decide_False by lia. rewrite decide_True by done.
        by rewrite Nat.sub_diag.
      * rewrite decide_True by (split; [done|lia]).
        replace (c' - m) with (S (c' - S m)) by lia. simpl.
        rewrite cell_at_set_value.
        rewrite !decide_False by (intros [= ?]; lia). done.
    + rewrite decide_False by (intros [-> ?]; apply Hn; split; [done|lia]).
      rewrite decide_False; [done|]. intros [= -> ->]. apply Hn. split; [done|lia].
Qed.

Lemma write_row_lookup r data ws r' c' :
  write_row r data ws !! (r', c') =
  if decide (r' = r /\ 1 <= c') then
    match data !! (c' - 1) with
    | Some v => Some (Cell v (fill (cell_at ws r' c')))
    | None => ws !! (r', c')
    end
  else ws !! (r', c').
Proof. apply write_from_lookup. Qed.

Lemma write_rows_from_lookup n rows ws r c :
  foldl (fun ws '(row_idx, row_data) => write_row row_idx row_data ws) ws
        (zip (seq n (length rows)) rows) !! (r, c) =
  match (if decide (n <= r) then rows !! (r - n) else None) with
  | Some data => write_row r data ws !! (r, c)
  | None => ws !! (r, c)
  end.
Proof.
  revert n ws. induction rows as [|x rows IH]; intros n ws; simpl.
  - by case_decide.
  - rewrite IH.
    assert (Hother : forall c', r <> n -> write_row n x ws !! (r, c') = ws !! (r, c')).
    { intros c' Hne. rewrite write_row_lookup. rewrite decide_False; [done|].
      by intros [? _]. }
    destruct (decide (n <= r)) as [Hle|Hgt].
    + destruct (decide (r = n)) as [->|Hne].
      * rewrite decide_False by lia. by rewrite Nat.sub_diag.
      * rewrite decide_True by lia.
        replace (r - n) with (S (r - S n)) by lia. simpl.
        destruct (rows !! (r - S n)) as [data|]; [|by apply Hother].
        rewrite !write_row_lookup. unfold cell_at.
        rewrite !(decide_False (P := r = n /\ 1 <= c)) by (by intros [? _]).
        by rewrite Hother.
    + rewrite decide_False by lia. apply Hother. lia.
Qed.

Lemma write_rows_lookup rows ws r c :
  write_rows rows ws !! (r, c) =
  match written rows r c with
  | Some v => Some (Cell v (fill (cell_at ws r c)))
  | None => ws !! (r, c)
  end.
Proof.
  unfold write_rows, enumerate. rewrite write_rows_from_lookup. unfold written.
  destruct (decide (2 <= r)) as [Hr|Hr].
  - destruct (decide (1 <= c)) as [Hc|Hc].
    + rewrite decide_True by done.
      destruct (rows !! (r - 2)) as [data|]; simpl; [|done].
      rewrite write_row_lookup. by rewrite decide_True by done.
    + rewrite decide_False by lia.
      destruct (rows !! (r - 2)) as [data|]; simpl; [|done].
      rewrite write_row_lookup. by rewrite decide_False by lia.
  - by rewrite decide_False by lia.
Qed.

Lemma written_Some rows r c v :
  written rows r c = Some v -> 2 <= r < 2 + length rows /\ 1 <= c.
Proof.
  unfold written. case_decide as H; [|done]. intros Hv.
  destruct (rows !! (r - 2)) as [data|] eqn:Hd; [|done].
  apply lookup_lt_Some in Hd. lia.
Qed.

Lemma written_rows_to_write cvedict r c v :
  written (rows_to_write cvedict) r c = Some v -> c <= 4.
Proof.
  unfold written, rows_to_write. case_decide as H; [|done].
  rewrite list_lookup_fmap.
  destruct (cvedict !! (r - 2)) as [[cveid row_data]|]; simpl; [|done].
  intros Hv%lookup_lt_Some. simpl in Hv. lia.
Qed.

(** Writing the rows again where they stand changes nothing. *)
Lemma write_rows_stable rows ws :
  (forall r c v, written rows r c = Some v ->
                 exists f, ws !! (r, c) = Some (Cell v f)) ->
  write_rows rows ws = ws.
Proof.
  intros H. apply map_eq. intros [r c]. rewrite write_rows_lookup.
  destruct (written rows r c) as [v|] eqn:Hv; [|done].
  destruct (H r c v Hv) as [f Hf]. unfold cell_at. by rewrite Hf.
Qed.

End WriteRows.

Lemma write_to_excel_unfold basename cvedict w :
  write_to_excel basename cvedict w =
  (Ok tt,
   World (cache_dir w) (files w)
         (<[xlsx_path basename :=
              write_rows (rows_to_write cvedict)
                         (default (write_header ∅) (docs w !! xlsx_path basename))]>
            (docs w))
         (requests w),
   []).
Proof.
  unfold write_to_excel, mbind, M_bind, bind, gets, save, modify. simpl.
  by destruct (docs w !! xlsx_path basename).
Qed.

Lemma write_rows_changes_only_the_findings cvedict ws r c :
  write_rows (rows_to_write cvedict) ws !! (r, c) <> ws !! (r, c) ->
  2 <= r <= length cvedict + 1 /\ 1 <= c <= 4.
Proof.
  intros Hne. rewrite write_rows_lookup in Hne.
  destruct (written (rows_to_write cvedict) r c) as [v|] eqn:Hv; [|done].
  pose proof (written_Some _ _ _ _ Hv) as [Hr Hc].
  pose proof (written_rows_to_write _ _ _ _ Hv) as Hc4.
  unfold rows_to_write in Hr. rewrite length_map in Hr. lia.
Qed.

Lemma write_rows_max_row cvedict ws :
  length cvedict + 1 <= max_row ws ->
  max_row (write_rows (rows_to_write cvedict) ws) = max_row ws.
Proof.
  intros Hlen. set (new := write_rows (rows_to_write cvedict) ws).
  assert (Hsame : forall r c, ~ (2 <= r <= length cvedict + 1) ->
                              new !! (r, c) = ws !! (r, c)).
  { intros r c Hr. destruct (decide (new !! (r, c) = ws !! (r, c))) as [|Hne];
      [done|]. apply write_rows_changes_only_the_findings in Hne. lia. }
  apply Nat.le_antisymm.
  - apply max_row_le. split; [apply max_row_ge_1|]. intros r c Hs.
    destruct (decide (2 <= r <= length cvedict + 1)) as [Hr|Hr]; [lia|].
    rewrite Hsame in Hs by done. by apply max_row_bound in Hs.
  - destruct (decide (1 < max_row ws)) as [Hgt|Hle].
    + destruct (max_row_attained ws Hgt) as [c Hs].
      destruct (decide (max_row ws <= length cvedict + 1)) as [Hin|Hout].
      * (* the last row is one of the written rows *)
        apply (max_row_bound new (max_row ws) 4).
        unfold new. rewrite write_rows_lookup. unfold written, rows_to_write.
        rewrite decide_True by lia. rewrite list_lookup_fmap.
        destruct (cvedict !! (max_row ws - 2)) as [[cveid row_data]|] eqn:Hd.
        -- simpl. by eexists.
        -- apply lookup_ge_None in Hd. lia.
      * apply (max_row_bound new (max_row ws) c). rewrite Hsame by lia. done.
    + pose proof (max_row_ge_1 new). lia.
Qed.

(** C10.  The workbook is there and has more data rows than the input has
    identifiers: [write_to_excel] changes cells in the rows 2 to N+1 and the
    columns 1 to 4 only, where it writes the N identifiers; every cell of a
    later row stays as it was, the sheet keeps its number of rows, and the
    later rows are among the rows that the merge goes through. *)
Theorem stale_rows_survive_the_build
    (basename : string) (cvedict : list (string * csv_row)) (w : world)
    (old : sheet) :
  docs w !! xlsx_path basename = Some old ->
  length cvedict + 1 < max_row old ->
  let new := write_rows (rows_to_write cvedict) old in
  write_to_excel basename cvedict w =
    (Ok tt,
     World (cache_dir w) (files w) (<[xlsx_path basename := new]> (docs w))
           (requests w),
     []) /\
  (forall r c, new !! (r, c) <> old !! (r, c) ->
               2 <= r <= length cvedict + 1 /\ 1 <= c <= 4) /\
  (forall i cveid row_data,
     cvedict !! i = Some (cveid, row_data) ->
     value (cell_at new (2 + i) 4) = XStr cveid) /\
  max_row new = max_row old /\
  (forall r, length cvedict + 1 < r <= max_row old ->
             r ∈ iter_rows new 2 /\ forall c, new !! (r, c) = old !! (r, c)).
Proof.
  intros Hdoc Hlen new. split; [|split; [|split; [|split]]].
  - rewrite write_to_excel_unfold, Hdoc. done.
  - apply write_rows_changes_only_the_findings.
  - intros i cveid row_data Hi. unfold new, cell_at.
    rewrite write_rows_lookup. unfold written, rows_to_write.
    rewrite decide_True by lia. rewrite list_lookup_fmap.
    replace (2 + i - 2) with i by lia. rewrite Hi. done.
  - apply write_rows_max_row. lia.
  - intros r Hr. split.
    + unfold iter_rows, new. rewrite (write_rows_max_row cvedict old) by lia.
      apply elem_of_seq. lia.
    + intros c. destruct (decide (new !! (r, c) = old !! (r, c))) as [|Hne];
        [done|]. apply write_rows_changes_only_the_findings in Hne. lia.
Qed.

Lemma stale_rows_survive_the_build_witness :
  let w := World true ∅ {[ "scan_result.xlsx" := Sample.two_rows ]} 0 in
  let cvedict := [("CVE-2021-44228", Sample.scan_row)] in
  let new := write_rows (rows_to_write cvedict) Sample.two_rows in
  write_to_excel "scan" cvedict w =
    (Ok tt, World true ∅ (<[ "scan_result.xlsx" := new ]> (docs w)) 0, []) /\
  (forall r c, new !! (r, c) <> Sample.two_rows !! (r, c) ->
               2 <= r <= 2 /\ 1 <= c <= 4) /\
  (forall i cveid row_data,
     cvedict !! i = Some (cveid, row_data) ->
     value (cell_at new (2 + i) 4) = XStr cveid) /\
  max_row new = max_row Sample.two_rows /\
  (forall r, 2 < r <= max_row Sample.two_rows ->
             r ∈ iter_rows new 2 /\
             forall c, new !! (r, c) = Sample.two_rows !! (r, c)).
Proof.
  apply (stale_rows_survive_the_build "scan"
           [("CVE-2021-44228", Sample.scan_row)]
           (World true ∅ {[ "scan_result.xlsx" := Sample.two_rows ]} 0)
           Sample.two_rows).
  - reflexivity.
  - vm_compute. lia.
Defined.

(** ** A second pass of the merge *)

Section Patches.
Implicit Types (ws : sheet) (r c W : nat) (P Q : row_patch) (p q : patch).

Lemma apply_after q p x : apply_patch (after q p) x = apply_patch q (apply_patch p x).
Proof.
  destruct q as [[v|] [f|]], p as [[v'|] [f'|]], x; reflexivity.
Qed.

Lemma apply_patch_twice p x : apply_patch p (apply_patch p x) = apply_patch p x.
Proof. destruct p as [[v|] [f|]], x; reflexivity. Qed.

Lemma patched_refl r ws : patched r no_patch ws ws.
Proof. intros r' c. unfold no_patch. by case_decide. Qed.

Lemma patched_then r P Q ws ws1 ws2 :
  patched r P ws ws1 -> patched r Q ws1 ws2 -> patched r (then_patch P Q) ws ws2.
Proof.
  intros H1 H2 r' c. rewrite H2. unfold then_patch, cell_at. rewrite !H1.
  case_decide as Hr; [|done].
  destruct (P c) as [p|], (Q c) as [q|]; simpl; try done.
  by rewrite apply_after.
Qed.

Lemma patched_cell r c (g : cell -> cell) p ws :
  (forall x, g x = apply_patch p x) ->
  patched r (one_patch c p) ws (<[(r, c) := g (cell_at ws r c)]> ws).
Proof.
  intros Hg r' c'. rewrite lookup_insert. unfold one_patch.
  destruct (decide (r' = r)) as [->|Hr].
  - destruct (decide (c' = c)) as [->|Hc].
    + rewrite decide_True by done. by rewrite Hg.
    + rewrite decide_False; [done|]. by intros [= ?].
  - rewrite decide_False; [done|]. by intros [= ? ?].
Qed.

Lemma patched_set_value r c v ws :
  patched r (one_patch c (Patch (Some v) None)) ws (set_value r c v ws).
Proof.
  unfold set_value.
  apply (patched_cell r c (fun x => Cell v (fill x))). by intros [].
Qed.

Lemma patched_make r c ws :
  patched r (one_patch c (Patch None None)) ws (<[(r, c) := cell_at ws r c]> ws).
Proof. apply (patched_cell r c (fun x => x)). by intros []. Qed.

Lemma patched_fill_row r f ws :
  patched r (fun c => if decide (1 <= c <= max_column ws)
                      then Some (Patch None (Some f)) else None)
          ws (fill_row_with_color r f ws).
Proof.
  intros r' c. unfold fill_row_with_color. rewrite foldl_set_fill_lookup.
  destruct (decide (r' = r)) as [->|Hr].
  - destruct (decide (1 <= c <= max_column ws)) as [Hc|Hc].
    + rewrite decide_True; [done|]. split; [done|]. apply elem_of_seq. lia.
    + rewrite decide_False; [done|]. intros [_ Hin%elem_of_seq]. lia.
  - rewrite decide_False; [done|]. by intros [? _].
Qed.

Lemma scoped_no_patch W : scoped W no_patch.
Proof. intros c p. by unfold no_patch. Qed.

Lemma scoped_one W c p :
  1 <= c <= W -> 5 <= c \/ pvalue p = None -> scoped W (one_patch c p).
Proof.
  intros Hc Hp c' p'. unfold one_patch. case_decide; [|done].
  intros [= <-]. by subst.
Qed.

Lemma scoped_then W P Q : scoped W P -> scoped W Q -> scoped W (then_patch P Q).
Proof.
  intros HP HQ c x. unfold then_patch.
  destruct (P c) as [p|] eqn:Hp, (Q c) as [q|] eqn:Hq; intros [= <-].
  - destruct (HP c p Hp) as [Hc Hv], (HQ c q Hq) as [_ Hv'].
    split; [done|]. destruct Hv as [|Hv]; [by left|].
    destruct Hv' as [|Hv']; [by left|]. right. simpl. by rewrite Hv', Hv.
  - by apply HP.
  - by apply HQ.
Qed.

Lemma patched_is_Some r P ws ws' r' c :
  patched r P ws ws' -> is_Some (ws !! (r', c)) -> is_Some (ws' !! (r', c)).
Proof.
  intros H Hs. rewrite H. case_decide; [|done].
  destruct (P c); [by eexists|done].
Qed.

Lemma patched_dims W r P ws ws' :
  scoped W P -> patched r P ws ws' ->
  max_column ws = W -> r <= max_row ws ->
  max_column ws' = W /\ max_row ws' = max_row ws.
Proof.
  intros Hsc Hp Hmc Hmr.
  assert (Hkeys : forall r' c, is_Some (ws' !! (r', c)) ->
            is_Some (ws !! (r', c)) \/ (r' = r /\ 1 <= c <= W)).
  { intros r' c Hs. rewrite Hp in Hs. case_decide as Hr; [|by left].
    destruct (P c) as [p|] eqn:HP; [|by left].
    right. split; [done|]. by apply (Hsc c p). }
  split; apply Nat.le_antisymm.
  - apply max_column_le. split; [pose proof (max_column_ge_1 ws); lia|].
    intros r' c Hs. destruct (Hkeys r' c Hs) as [Hold|[_ Hc]]; [|lia].
    apply max_column_bound in Hold. lia.
  - rewrite <- Hmc. apply max_column_le. split; [apply max_column_ge_1|].
    intros r' c Hs. apply (max_column_bound ws' r' c).
    by apply (patched_is_Some r P ws).
  - apply max_row_le. split; [apply max_row_ge_1|].
    intros r' c Hs. destruct (Hkeys r' c Hs) as [Hold|[-> _]]; [|done].
    by apply max_row_bound in Hold.
  - apply max_row_le. split; [apply max_row_ge_1|].
    intros r' c Hs. apply (max_row_bound ws' r' c).
    by apply (patched_is_Some r P ws).
Qed.

(** A row that already carries the patch is not changed by it. *)
Lemma patched_again r P x x' y y' :
  patched r P x x' -> (forall c, y !! (r, c) = x' !! (r, c)) ->
  patched r P y y' -> y' = y.
Proof.
  intros Hx Hrow Hy. apply map_eq. intros [r' c]. rewrite Hy.
  case_decide as Hr; [subst r'|done].
  destruct (P c) as [p|] eqn:HP; [|done].
  unfold cell_at. rewrite !Hrow, !Hx. rewrite decide_True by done.
  rewrite HP. simpl. by rewrite apply_patch_twice.
Qed.

Lemma patched_value_kept W r P ws ws' c :
  scoped W P -> patched r P ws ws' -> c < 5 ->
  value (cell_at ws' r c) = value (cell_at ws r c).
Proof.
  intros Hsc Hp Hc. unfold cell_at at 1. rewrite Hp. rewrite decide_True by done.
  destruct (P c) as [p|] eqn:HP; [|done]. simpl.
  destruct (Hsc c p HP) as [_ [?|Hv]]; [lia|]. by rewrite Hv.
Qed.

End Patches.

Section Oblivious.
Context (W r : nat).
Implicit Types (ws : sheet) (P Q : row_patch).

Lemma oblivious_pure {A : Type} (res : result A) (l : list event) (m : M sheet A) :
  (forall ws, m ws = (res, ws, l)) -> oblivious W r m.
Proof.
  intros Hm. exists res, l, no_patch. split; [apply scoped_no_patch|].
  intros ws _ _. exists ws. split; [apply Hm|apply patched_refl].
Qed.

Lemma oblivious_ret {A : Type} (a : A) : oblivious W r (ret a).
Proof. by apply (oblivious_pure (Ok a) []). Qed.

Lemma oblivious_lift {A : Type} (x : result A) : oblivious W r (lift x).
Proof. by apply (oblivious_pure x []). Qed.

Lemma oblivious_log lvl msg : oblivious W r (log lvl msg).
Proof. by apply (oblivious_pure (Ok tt) [Log lvl msg]). Qed.

Lemma oblivious_bind {A B : Type} (m : M sheet A) (k : A -> M sheet B) :
  oblivious W r m -> (forall a, oblivious W r (k a)) -> oblivious W r (m ≫= k).
Proof.
  intros (res1 & l1 & P1 & Hs1 & H1) Hk. destruct res1 as [a|e].
  - destruct (Hk a) as (res2 & l2 & P2 & Hs2 & H2).
    exists res2, (l1 ++ l2), (then_patch P1 P2).
    split; [by apply scoped_then|].
    intros ws Hc Hr. destruct (H1 ws Hc Hr) as (ws1 & Hm & Hp1).
    destruct (patched_dims W r P1 ws ws1 Hs1 Hp1 Hc Hr) as [Hc1 Hr1].
    destruct (H2 ws1 Hc1 ltac:(lia)) as (ws2 & Hk2 & Hp2).
    exists ws2. split; [|by eapply patched_then].
    unfold mbind, M_bind, bind. by rewrite Hm, Hk2.
  - exists (Raise e), l1, P1. split; [done|].
    intros ws Hc Hr. destruct (H1 ws Hc Hr) as (ws1 & Hm & Hp1).
    exists ws1. split; [|done]. unfold mbind, M_bind, bind. by rewrite Hm.
Qed.

Lemma oblivious_bind_lift {A B : Type} (x : result A) (k : A -> M sheet B) :
  (forall a, x = Ok a -> oblivious W r (k a)) -> oblivious W r (lift x ≫= k).
Proof.
  intros Hk. destruct x as [a|e].
  - destruct (Hk a eq_refl) as (res2 & l2 & P2 & Hs2 & H2).
    exists res2, l2, P2. split; [done|]. intros ws Hc Hr.
    destruct (H2 ws Hc Hr) as (ws2 & Hk2 & Hp2). exists ws2. split; [|done].
    unfold mbind, M_bind, bind, lift. by rewrite Hk2.
  - by apply (oblivious_pure (Raise e) []).
Qed.

Lemma oblivious_try_except {A : Type} (m : M sheet A) caught h :
  oblivious W r m -> (forall e, oblivious W r (h e)) ->
  oblivious W r (try_except m caught h).
Proof.
  intros (res1 & l1 & P1 & Hs1 & H1) Hh. destruct res1 as [a|e].
  - exists (Ok a), l1, P1. split; [done|].
    intros ws Hc Hr. destruct (H1 ws Hc Hr) as (ws1 & Hm & Hp1).
    exists ws1. split; [|done]. unfold try_except. by rewrite Hm.
  - destruct (caught e) eqn:He.
    + destruct (Hh e) as (res2 & l2 & P2 & Hs2 & H2).
      exists res2, (l1 ++ l2), (then_patch P1 P2).
      split; [by apply scoped_then|].
      intros ws Hc Hr. destruct (H1 ws Hc Hr) as (ws1 & Hm & Hp1).
      destruct (patched_dims W r P1 ws ws1 Hs1 Hp1 Hc Hr) as [Hc1 Hr1].
      destruct (H2 ws1 Hc1 ltac:(lia)) as (ws2 & Hk2 & Hp2).
      exists ws2. split; [|by eapply patched_then].
      unfold try_except. by rewrite Hm, He, Hk2.
    + exists (Raise e), l1, P1. split; [done|].
      intros ws Hc Hr. destruct (H1 ws Hc Hr) as (ws1 & Hm & Hp1).
      exists ws1. split; [|done]. unfold try_except. by rewrite Hm, He.
Qed.

Lemma oblivious_fold_m {A B : Type} (f : B -> A -> M sheet B) (b : B) (l : list A) :
  (forall b x, x ∈ l -> oblivious W r (f b x)) -> oblivious W r (fold_m f b l).
Proof.
  revert b. induction l as [|x l IH]; intros b H; simpl.
  - apply oblivious_ret.
  - apply oblivious_bind; [apply H; left|].
    intros b'. apply IH. intros b'' y Hy. apply H. by right.
Qed.

Lemma oblivious_set_value c v :
  5 <= c <= W -> oblivious W r (modify (set_value r c v)).
Proof.
  intros Hc. exists (Ok tt), [], (one_patch c (Patch (Some v) None)).
  split; [apply scoped_one; [lia|left; lia]|].
  intros ws _ _. exists (set_value r c v ws). split; [done|].
  apply patched_set_value.
Qed.

Lemma oblivious_assign c v : 5 <= c <= W -> oblivious W r (assign r c v).
Proof.
  intros Hc. unfold assign. apply oblivious_bind; [|intros _].
  - exists (Ok tt), [], (one_patch c (Patch None None)).
    split; [apply scoped_one; [lia|by right]|].
    intros ws _ _. eexists. split; [done|]. apply patched_make.
  - apply oblivious_bind; [apply oblivious_lift|intros x].
    by apply oblivious_set_value.
Qed.

Lemma oblivious_fill_row f :
  oblivious W r (modify (fill_row_with_color r f)).
Proof.
  exists (Ok tt), [],
    (fun c => if decide (1 <= c <= W) then Some (Patch None (Some f)) else None).
  split.
  - intros c p. case_decide; [|done]. intros [= <-]. split; [done|by right].
  - intros ws Hc _. eexists. split; [done|]. rewrite <- Hc.
    apply patched_fill_row.
Qed.

Context (E : env) (fs : gmap string cache_file) (HW : 13 <= W).

Lemma write_cwe_oblivious cve_info : oblivious W r (write_cwe r cve_info).
Proof.
  unfold write_cwe.
  apply oblivious_bind_lift. intros [] _; [|apply oblivious_ret].
  do 5 (apply oblivious_bind_lift; intros ? _).
  apply oblivious_bind_lift. intros c [= <-].
  apply oblivious_assign. lia.
Qed.

Lemma cvss_step_oblivious cvss_dicts scores version :
  version ∈ cvss_versions ->
  oblivious W r (cvss_step E r cvss_dicts scores version).
Proof.
  intros Hv. unfold cvss_versions in Hv.
  repeat (apply elem_of_cons in Hv as [-> | Hv]); [..|by apply elem_of_nil in Hv];
    unfold cvss_step;
    (apply oblivious_bind_lift; intros [] _; [|apply oblivious_ret]);
    do 6 (apply oblivious_bind_lift; intros ? _);
    (apply oblivious_bind_lift; intros c1 Hc1;
     vm_compute in Hc1; injection Hc1 as <-);
    (apply oblivious_bind; [apply oblivious_set_value; lia|intros _]);
    (apply oblivious_bind_lift; intros ? _);
    (apply oblivious_bind_lift; intros c2 Hc2;
     vm_compute in Hc2; injection Hc2 as <-);
    (apply oblivious_bind;
       [apply oblivious_set_value; lia|intros _; apply oblivious_ret]).
Qed.

Lemma write_scores_oblivious cveid cvss_dicts :
  oblivious W r (write_scores E r cveid cvss_dicts).
Proof.
  unfold write_scores. apply oblivious_bind; [|intros scores].
  - apply oblivious_fold_m. intros. by apply cvss_step_oblivious.
  - match goal with |- context [if ?b then _ else _] => destruct b end.
    + apply oblivious_bind; [apply oblivious_log|intros _].
      apply oblivious_fill_row.
    + apply oblivious_log.
Qed.

Lemma merge_record_oblivious cveid filename :
  oblivious W r (merge_record E fs r cveid filename).
Proof.
  unfold merge_record.
  do 2 (apply oblivious_bind_lift; intros ? _).
  match goal with |- context [if ?b then _ else _] => destruct b end;
    [apply oblivious_log|].
  do 5 (apply oblivious_bind_lift; intros ? _).
  apply oblivious_bind; [apply write_cwe_oblivious|intros _].
  apply write_scores_oblivious.
Qed.

(** The pass of a row, as a patch that depends on the row's identifier
    only. *)
Lemma merge_row_oblivious cveid :
  exists res l P,
    scoped W P /\
    forall ws, max_column ws = W -> r <= max_row ws ->
      value (cell_at ws r 4) = cveid ->
      exists ws', merge_row E fs W r ws = (res, ws', l) /\ patched r P ws ws'.
Proof.
  set (filename := cache_filename cveid).
  destruct (negb (bool_decide (is_Some (fs !! filename)))) eqn:Hfile.
  - exists (Ok tt), [Log WARNING (NoCacheFile filename)], no_patch.
    split; [apply scoped_no_patch|]. intros ws Hc Hr Hid. exists ws.
    split; [|apply patched_refl].
    rewrite merge_row_unfold by lia. simpl. rewrite Hid. fold filename.
    by rewrite Hfile.
  - destruct (oblivious_try_except
                (merge_record E fs r cveid filename) caught_by_merge
                (fun e => log ERROR (JsonError filename e))
                (merge_record_oblivious cveid filename)
                (fun e => oblivious_log ERROR (JsonError filename e)))
      as (res & l & P & Hs & H).
    exists res, l, P. split; [done|]. intros ws Hc Hr Hid.
    destruct (H ws Hc Hr) as (ws' & Hm & Hp). exists ws'. split; [|done].
    rewrite merge_row_unfold by lia. simpl. rewrite Hid. fold filename.
    by rewrite Hfile.
Qed.

(** A second pass over a row that carries the result of a first pass. *)
Lemma merge_row_again x x' l y :
  max_column x = W -> r <= max_row x ->
  merge_row E fs W r x = (Ok tt, x', l) ->
  max_column y = W -> r <= max_row y ->
  (forall c, y !! (r, c) = x' !! (r, c)) ->
  merge_row E fs W r y = (Ok tt, y, l).
Proof.
  intros Hcx Hrx Hx Hcy Hry Hrow.
  destruct (merge_row_oblivious (value (cell_at x r 4)))
    as (res & l0 & P & Hs & H).
  destruct (H x Hcx Hrx eq_refl) as (x0 & Hx0 & Hpx).
  rewrite Hx in Hx0. injection Hx0 as <- <- <-.
  assert (Hid : value (cell_at y r 4) = value (cell_at x r 4)).
  { unfold cell_at at 1. rewrite Hrow. fold (cell_at x' r 4).
    apply (patched_value_kept W r P x x' 4 Hs Hpx). lia. }
  destruct (H y Hcy Hry Hid) as (y0 & Hy0 & Hpy).
  rewrite Hy0. by rewrite (patched_again r P x x' y y0 Hpx Hrow Hpy).
Qed.

Lemma merge_row_dims x :
  max_column x = W -> r <= max_row x ->
  max_column (merge_row E fs W r x).1.2 = W /\
  max_row (merge_row E fs W r x).1.2 = max_row x.
Proof.
  intros Hcx Hrx.
  destruct (merge_row_oblivious (value (cell_at x r 4)))
    as (res & l0 & P & Hs & H).
  destruct (H x Hcx Hrx eq_refl) as (x0 & Hx0 & Hpx).
  rewrite Hx0. simpl. by apply (patched_dims W r P x x0).
Qed.

End Oblivious.

Section SecondPass.
Context (E : env) (fs : gmap string cache_file) (W : nat) (HW : 13 <= W).
Implicit Types (x y z : sheet) (rows : list nat).

Lemma for_each_merge_dims rows x :
  max_column x = W -> (forall r, r ∈ rows -> r <= max_row x) ->
  max_column (for_each (merge_row E fs W) rows x).1.2 = W /\
  max_row (for_each (merge_row E fs W) rows x).1.2 = max_row x.
Proof.
  revert x. induction rows as [|r rows IH]; intros x Hc Hr; simpl; [done|].
  unfold mbind, M_bind, bind.
  destruct (merge_row_dims W r E fs HW x Hc (Hr r ltac:(left))) as [Hc1 Hr1].
  destruct (merge_row E fs W r x) as [[[[]|e] x1] l1]; simpl in *; [|done].
  destruct (IH x1 Hc1) as [Hc2 Hr2].
  { intros r' Hin. rewrite Hr1. apply Hr. by right. }
  destruct (for_each (merge_row E fs W) rows x1) as [[res z] l2]; simpl in *.
  split; [done|lia].
Qed.

Lemma for_each_merge_again rows x z l y :
  NoDup rows ->
  max_column x = W -> (forall r, r ∈ rows -> r <= max_row x) ->
  for_each (merge_row E fs W) rows x = (Ok tt, z, l) ->
  max_column y = W -> (forall r, r ∈ rows -> r <= max_row y) ->
  (forall r c, r ∈ rows -> y !! (r, c) = z !! (r, c)) ->
  for_each (merge_row E fs W) rows y = (Ok tt, y, l).
Proof.
  intros Hnd. revert x l.
  induction Hnd as [|r rows Hnin Hnd IH]; intros x l Hcx Hrx Hx Hcy Hry Hrows.
  - simpl in *. by injection Hx as <- <-.
  - simpl in Hx |- *. unfold mbind, M_bind, bind in Hx |- *.
    destruct (merge_row_dims W r E fs HW x Hcx (Hrx r ltac:(left))) as [Hc1 Hr1].
    destruct (merge_row E fs W r x) as [[[[]|e] x1] l1] eqn:Hrow; simpl in *;
      [|done].
    pose proof (preserves_for_each (touches (fun r' => r' ∈ rows) merge_column)
                  (merge_row E fs W) rows
                  (fun r' Hin => merge_row_touches E fs _ W r' Hin) x1) as Ht.
    destruct (for_each (merge_row E fs W) rows x1) as [[res2 z2] l2] eqn:Hrest.
    simpl in Ht. injection Hx as -> -> <-.
    assert (Hy1 : merge_row E fs W r y = (Ok tt, y, l1)).
    { apply (merge_row_again W r E fs HW x x1 l1 y); try done.
      - apply Hrx. left.
      - apply Hry. left.
      - intros c. rewrite Hrows by left.
        by apply (touches_other_row _ _ _ _ _ _ Ht). }
    rewrite Hy1.
    rewrite (IH x1 l2); try done.
    + intros r' Hin. rewrite Hr1. apply Hrx. by right.
    + intros r' Hin. apply Hry. by right.
    + intros r' c Hin. apply Hrows. by right.
Qed.

End SecondPass.

(** A merge that returned, run again on its own result with the same
    cache, returns and changes nothing. *)
Lemma merge_rows_again E fs ws merged l :
  13 <= max_column ws ->
  merge_rows E fs ws ws = (Ok tt, merged, l) ->
  merge_rows E fs merged merged = (Ok tt, merged, l).
Proof.
  intros HW Hm. unfold merge_rows in *.
  assert (Hbound : forall r, r ∈ iter_rows ws 2 -> r <= max_row ws).
  { intros r Hin%elem_of_seq. lia. }
  pose proof (for_each_merge_dims E fs (max_column ws) HW (iter_rows ws 2) ws
                eq_refl Hbound) as [Hc Hr].
  rewrite Hm in Hc, Hr. simpl in Hc, Hr.
  assert (Hrows : iter_rows merged 2 = iter_rows ws 2).
  { unfold iter_rows. by rewrite Hr. }
  rewrite Hc, Hrows.
  apply (for_each_merge_again E fs (max_column ws) HW (iter_rows ws 2) ws merged);
    try done.
  - apply NoDup_seq.
  - intros r Hin. rewrite Hr. by apply Hbound.
Qed.

Lemma merge_rows_dims E fs ws merged l :
  13 <= max_column ws ->
  merge_rows E fs ws ws = (Ok tt, merged, l) ->
  max_column merged = max_column ws /\ max_row merged = max_row ws.
Proof.
  intros HW Hm. unfold merge_rows in *.
  assert (Hbound : forall r, r ∈ iter_rows ws 2 -> r <= max_row ws).
  { intros r Hin%elem_of_seq. lia. }
  pose proof (for_each_merge_dims E fs (max_column ws) HW (iter_rows ws 2) ws
                eq_refl Hbound) as [Hc Hr].
  rewrite Hm in Hc, Hr. done.
Qed.


(** ** A second run of the pipeline *)

Lemma getCVEInfo_hit E w CVEID :
  is_Some (files w !! cache_filename CVEID) ->
  getCVEInfo E CVEID w =
    (Ok tt,
     World true (files w) (docs w) (requests w),
     (if cache_dir w then [] else [Log INFO (CreatingFolder CACHE_PATH)]) ++
     [Log INFO (FileExists (cache_filename CVEID))]).
Proof.
  intros [f Hf]. unfold getCVEInfo. unfold_m.
  destruct w as [cd fs ds n]; simpl in *.
  destruct cd; simpl; rewrite Hf; reflexivity.
Qed.


Lemma touches_cell_kept P C ws ws' r c v f :
  touches P C ws ws' -> ~ C c -> ws !! (r, c) = Some (Cell v f) ->
  exists f', ws' !! (r, c) = Some (Cell v f').
Proof.
  intros Ht Hc Hcell.
  pose proof (touches_is_Some P C ws ws' (r, c) Ht ltac:(by eexists)) as [x Hx].
  pose proof (touches_value_kept P C ws ws' r c Ht Hc) as Hv.
  unfold cell_at in Hv. rewrite Hx, Hcell in Hv. simpl in Hv.
  destruct x as [v' f']. simpl in Hv. subst v'. by exists f'.
Qed.

Lemma write_rows_is_Some rows ws k :
  is_Some (ws !! k) -> is_Some (write_rows rows ws !! k).
Proof.
  destruct k as [r c]. intros Hs. rewrite write_rows_lookup.
  destruct (written rows r c); [by eexists|done].
Qed.

Lemma write_rows_max_column_ge rows ws :
  max_column ws <= max_column (write_rows rows ws).
Proof.
  apply max_column_le. split; [apply max_column_ge_1|].
  intros r c Hs. apply (max_column_bound _ r c). by apply write_rows_is_Some.
Qed.

Lemma write_rows_twice rows ws :
  write_rows rows (write_rows rows ws) = write_rows rows ws.
Proof.
  apply write_rows_stable. intros r c v Hv.
  rewrite write_rows_lookup, Hv. by eexists.
Qed.

Lemma build_and_merge_state E basename cvedict w :
  (build_and_merge E basename cvedict w).1.2 =
  (update_excel_with_cve_info E basename
     (World (cache_dir w) (files w)
            (<[xlsx_path basename :=
                 write_rows (rows_to_write cvedict)
                   (default (write_header ∅) (docs w !! xlsx_path basename))]>
               (docs w))
            (requests w))).1.2.
Proof.
  unfold build_and_merge, mbind, M_bind, bind.
  rewrite write_to_excel_unfold.
  by destruct (update_excel_with_cve_info _ _ _) as [[res w'] l].
Qed.

Section SecondRun.
Context (basename : string) (cvedict : list (string * csv_row)).
#[local] Abbreviation path := (xlsx_path basename).
#[local] Abbreviation rows := (rows_to_write cvedict).


(** The first run ends in such a state. *)
Lemma first_run_reaches_fixpoint E w0 :
  (forall ws, docs w0 !! path = Some ws -> 13 <= max_column ws) ->
  let w1 := (build_and_merge E basename cvedict w0).1.2 in
  exists X,
    docs w1 = <[path := X]> (docs w0) /\
    13 <= max_column X /\
    write_rows rows X = X /\
    ((exists e, (merge_rows E (files w1) X X).1.1 = Raise e) \/
     (exists l, merge_rows E (files w1) X X = (Ok tt, X, l))).
Proof.
  intros Hwide w1. subst w1. rewrite build_and_merge_state.
  set (base := default (write_header ∅) (docs w0 !! path)).
  set (wsA := write_rows rows base).
  set (wA := World (cache_dir w0) (files w0) (<[path := wsA]> (docs w0))
                   (requests w0)).
  assert (Hbase : 13 <= max_column base).
  { unfold base. destruct (docs w0 !! path) as [ws|] eqn:Hdoc; simpl.
    - by apply Hwide.
    - vm_compute. lia. }
  assert (HwsA : 13 <= max_column wsA).
  { pose proof (write_rows_max_column_ge rows base). unfold wsA. lia. }
  assert (HdocA : docs wA !! path = Some wsA) by apply lookup_insert_eq.
  assert (H4 : 4 <= max_column wsA) by lia.
  rewrite (update_excel_unfold E basename wA wsA HdocA (or_introl H4)).
  set (ids := map (fun r => value (cell_at wsA r 4)) (iter_rows wsA 2)).
  pose proof (fetch_all_docs E ids wA) as Hd.
  set (wF := (fetch_all E ids wA).1.2) in *.
  pose proof (merge_rows_touches E (files wF) wsA wsA) as Ht. simpl in Ht.
  destruct (merge_rows E (files wF) wsA wsA) as [[[[]|e] merged] l2] eqn:Hmerge;
    simpl in *.
  - exists merged. split; [by rewrite Hd, insert_insert_eq|].
    destruct (merge_rows_dims E (files wF) wsA merged l2 HwsA Hmerge) as [Hc _].
    split; [lia|]. split.
    + apply write_rows_stable. intros r c v Hv.
      assert (HA : wsA !! (r, c) = Some (Cell v (fill (cell_at base r c)))).
      { unfold wsA. by rewrite write_rows_lookup, Hv. }
      refine (touches_cell_kept _ _ _ _ r c v _ Ht _ HA).
      apply written_rows_to_write in Hv. unfold merge_column. lia.
    + right. exists l2.
      exact (merge_rows_again E (files wF) wsA merged l2 HwsA Hmerge).
  - exists wsA. split; [exact Hd|]. split; [done|]. split.
    + apply write_rows_twice.
    + left. exists e. by rewrite Hmerge.
Qed.

End SecondRun.

Lemma process_csv_file_state E file content w :
  (process_csv_file E file content w).1.2 =
  match content with
  | None => w
  | Some reader =>
      match build_cvedict reader [] with
      | Ok cvedict =>
          (build_and_merge E (splitext_root (os_path_basename file)) cvedict w).1.2
      | Raise _ => w
      end
  end.
Proof.
  unfold process_csv_file, try_except. destruct content as [reader|]; [|done].
  unfold mbind at 1. unfold M_bind, bind at 1. unfold lift at 1.
  destruct (build_cvedict reader []) as [cvedict|e]; [|done].
  change (write_to_excel (splitext_root (os_path_basename file)) cvedict
            ≫= (fun _ => update_excel_with_cve_info E
                           (splitext_root (os_path_basename file))))
    with (build_and_merge E (splitext_root (os_path_basename file)) cvedict).
  by destruct (build_and_merge E _ cvedict w) as [[[[]|e] w'] l].
Qed.

(** The workbooks keep their full header from run to run: a state without
    workbooks has it, and [process_csv_file] preserves it. *)
Lemma process_csv_file_full_headers E file content w :
  full_headers w -> full_headers (process_csv_file E file content w).1.2.
Proof.
  intros Hfull. rewrite process_csv_file_state.
  destruct content as [reader|]; [|done].
  destruct (build_cvedict reader []) as [cvedict|e]; [|done].
  set (basename := splitext_root (os_path_basename file)).
  destruct (first_run_reaches_fixpoint basename cvedict E w (Hfull _))
    as (X & Hdocs & HX & _).
  intros path ws. rewrite Hdocs, lookup_insert. case_decide.
  - by intros [= <-].
  - apply Hfull.
Qed.




(** * Further properties *)

(** ** The fetcher, on every path *)

Lemma count_requests_app l1 l2 :
  count_requests (l1 ++ l2) = count_requests l1 + count_requests l2.
Proof. unfold count_requests. by rewrite List.filter_app, length_app. Qed.

Lemma count_sleeps_app l1 l2 :
  count_sleeps (l1 ++ l2) = count_sleeps l1 + count_sleeps l2.
Proof. unfold count_sleeps. by rewrite List.filter_app, length_app. Qed.

(** What the loop of [getCVEInfo] leaves, whatever the network does. *)
Lemma fetch_loop_shape E id filename fuel attempt w :
  exists w' l,
    fetch_loop E id filename fuel attempt w = (Ok tt, w', l) /\
    cache_dir w' = cache_dir w /\ docs w' = docs w /\
    requests w' = requests w + count_requests l /\
    count_requests l <= max_attempts - attempt /\
    count_sleeps l <= max_attempts - 1 - attempt /\
    (files w' = files w \/
     exists body, files w' = <[filename := Json body]> (files w)).
Proof.
  revert attempt w. induction fuel as [|fuel IH]; intros attempt w.
  - exists w, []. split_and!; try done; try (cbn; lia). by left.
  - rewrite fetch_loop_S. destruct (attempt <? max_attempts) eqn:Hlt.
    2:{ exists w, []. split_and!; try done; try (cbn; lia). by left. }
    apply Nat.ltb_lt in Hlt. unfold max_attempts in *.
    unfold_m. simpl. destruct (net E (requests w) id) as [e|e|body]; simpl.
    + set (w1 := World (cache_dir w) (files w) (docs w) (S (requests w))).
      destruct (IH (attempt + 1) w1)
        as (w' & l & Hrun & Hcd & Hdocs & Hreq & Hn & Hs & Hf).
      simpl in Hreq.
      destruct (attempt + 1 <? 3) eqn:Hlt'; simpl; rewrite Hrun; simpl;
        eexists _, _; (split; [reflexivity|]);
        [apply Nat.ltb_lt in Hlt'|apply Nat.ltb_ge in Hlt'];
        (split_and!; try done;
         cbn [count_requests count_sleeps List.filter is_request is_sleep length]
           in *;
         fold (count_requests l) in *; fold (count_sleeps l) in *; lia).
    + eexists _, _. split; [reflexivity|]. simpl.
      split_and!; try done; try (cbn; lia). by left.
    + eexists _, _. split; [reflexivity|]. simpl.
      split_and!; try done; try (cbn; lia). right. by exists body.
Qed.

Lemma getCVEInfo_shape E CVEID w :
  exists w' l,
    getCVEInfo E CVEID w = (Ok tt, w', l) /\
    cache_dir w' = true /\ docs w' = docs w /\
    requests w' = requests w + count_requests l /\
    count_requests l <= 3 /\ count_sleeps l <= 2 /\
    (files w' = files w \/
     files w !! cache_filename CVEID = None /\
     exists body, files w' = <[cache_filename CVEID := Json body]> (files w)).
Proof.
  destruct (files w !! cache_filename CVEID) as [f|] eqn:Hf.
  - rewrite getCVEInfo_hit by by eexists. eexists _, _. split; [reflexivity|].
    simpl. split_and!; try done.
    + destruct (cache_dir w); cbn; lia.
    + destruct (cache_dir w); cbn; lia.
    + destruct (cache_dir w); cbn; lia.
    + by left.
  - set (w0 := World true (files w) (docs w) (requests w)).
    destruct (fetch_loop_shape E (fstr CVEID) (cache_filename CVEID)
                (S max_attempts) 0 w0)
      as (w' & l & Hrun & Hcd & Hdocs & Hreq & Hn & Hs & Hfiles).
    simpl in Hcd, Hdocs, Hreq, Hfiles. unfold max_attempts in Hn, Hs.
    exists w', ((if cache_dir w then [] else [Log INFO (CreatingFolder CACHE_PATH)])
                ++ Log INFO (FetchingData (fstr CVEID)) :: l).
    assert (Hcount : forall pre : list event,
              pre = [] \/ pre = [Log INFO (CreatingFolder CACHE_PATH)] ->
              count_requests (pre ++ Log INFO (FetchingData (fstr CVEID)) :: l)
                = count_requests l /\
              count_sleeps (pre ++ Log INFO (FetchingData (fstr CVEID)) :: l)
                = count_sleeps l).
    { intros pre [-> | ->]; by cbn. }
    destruct (Hcount (if cache_dir w then [] else [Log INFO (CreatingFolder CACHE_PATH)]))
      as [Hc1 Hc2]; [destruct (cache_dir w); auto|].
    rewrite Hc1, Hc2. split_and!; try done; try lia.
    + unfold getCVEInfo. unfold_m. destruct w as [cd fs ds n]; simpl in *.
      destruct cd; simpl; rewrite Hf; simpl; fold w0; by rewrite Hrun.
    + destruct Hfiles as [?|?]; [by left|by right].
Qed.

(** X1.  The identifier has no cache file, fewer than three attempts fail
    with a request error and the next one is answered: [getCVEInfo] pauses
    one second after each failure, writes the body to the identifier's
    cache file and stops there, without a further request. *)
Theorem getCVEInfo_stores_after_retries
    (E : env) (w : world) (CVEID : xl_value) (errors : list string)
    (body : json) :
  files w !! cache_filename CVEID = None ->
  length errors < max_attempts ->
  (forall i e, errors !! i = Some e ->
               net E (requests w + i) (fstr CVEID) = RequestException e) ->
  net E (requests w + length errors) (fstr CVEID) = Stored body ->
  getCVEInfo E CVEID w =
    (Ok tt,
     World true (<[cache_filename CVEID := Json body]> (files w)) (docs w)
           (requests w + length errors + 1),
     (if cache_dir w then [] else [Log INFO (CreatingFolder CACHE_PATH)]) ++
     [Log INFO (FetchingData (fstr CVEID))] ++
     retries (fstr CVEID) 1 errors ++
     [Request (fstr CVEID); Log INFO (SavedFile (cache_filename CVEID))]).
Proof.
  intros Hnone Hlen Hfail Hok.
  unfold getCVEInfo. change (S max_attempts) with 4. rewrite !fetch_loop_S.
  unfold_m. destruct w as [cd fs ds n]; simpl in *.
  unfold max_attempts in Hlen.
  destruct errors as [|e1 [|e2 [|e3 errors]]]; simpl in *; [..|lia].
  - rewrite Nat.add_0_r in Hok.
    destruct cd; simpl; rewrite Hnone; simpl; rewrite Hok; simpl;
      repeat f_equal; lia.
  - pose proof (Hfail 0 e1 eq_refl) as H1. rewrite Nat.add_0_r in H1.
    replace (n + 1) with (S n) in Hok by lia.
    destruct cd; simpl; rewrite Hnone; simpl; rewrite H1; simpl; rewrite Hok;
      simpl; repeat f_equal; lia.
  - pose proof (Hfail 0 e1 eq_refl) as H1. rewrite Nat.add_0_r in H1.
    pose proof (Hfail 1 e2 eq_refl) as H2.
    replace (n + 1) with (S n) in H2 by lia.
    replace (n + 2) with (S (S n)) in Hok by lia.
    destruct cd; simpl; rewrite Hnone; simpl; rewrite H1; simpl; rewrite H2;
      simpl; rewrite Hok; simpl; repeat f_equal; lia.
Qed.

Lemma getCVEInfo_stores_after_retries_witness :
  getCVEInfo
    (Env (fun n _ => if n <? 2 then RequestException "timeout"
                     else Stored Sample.log4shell) (fun _ => ""))
    (XStr "CVE-2021-44228") Sample.fresh =
  (Ok tt,
   World true {[ "cache/CVE-2021-44228.json" := Json Sample.log4shell ]} ∅ 3,
   [Log INFO (CreatingFolder "cache");
    Log INFO (FetchingData "CVE-2021-44228");
    Request "CVE-2021-44228"; Log ERROR (RequestFailed "timeout" 1 3); Sleep 1;
    Request "CVE-2021-44228"; Log ERROR (RequestFailed "timeout" 2 3); Sleep 1;
    Request "CVE-2021-44228";
    Log INFO (SavedFile "cache/CVE-2021-44228.json")]).
Proof.
  apply (getCVEInfo_stores_after_retries
           (Env (fun n _ => if n <? 2 then RequestException "timeout"
                            else Stored Sample.log4shell) (fun _ => ""))
           Sample.fresh (XStr "CVE-2021-44228") ["timeout"; "timeout"]
           Sample.log4shell).
  - reflexivity.
  - vm_compute. lia.
  - intros [|[|i]] e He; simpl in He; try discriminate;
      injection He as <-; reflexivity.
  - reflexivity.
Defined.




(** ** The coordinator *)

Lemma fetch_all_cons E id ids w w1 l1 :
  getCVEInfo E id w = (Ok tt, w1, l1) ->
  fetch_all E (id :: ids) w =
  (let '(r, w2, l2) := fetch_all E ids w1 in (r, w2, l1 ++ l2)).
Proof.
  intros Hrun. unfold fetch_all. simpl.
  unfold mbind, M_bind, bind, try_except. by rewrite Hrun.
Qed.

Lemma fetch_all_shape E cve_ids w :
  exists w' l,
    fetch_all E cve_ids w = (Ok tt, w', l) /\
    docs w' = docs w /\
    requests w' = requests w + count_requests l /\
    count_requests l <= 3 * length cve_ids /\
    files w ⊆ files w' /\
    (forall path, (forall id, id ∈ cve_ids -> path <> cache_filename id) ->
                  files w' !! path = files w !! path).
Proof.
  revert w. induction cve_ids as [|id ids IH]; intros w.
  - exists w, []. simpl. split_and!; try done; cbn; lia.
  - destruct (getCVEInfo_shape E id w)
      as (w1 & l1 & Hrun & Hcd & Hdocs & Hreq & Hn & Hs & Hfiles).
    destruct (IH w1) as (w2 & l2 & Hrest & Hdocs2 & Hreq2 & Hn2 & Hsub & Hother).
    exists w2, (l1 ++ l2). rewrite (fetch_all_cons E id ids w w1 l1 Hrun), Hrest.
    simpl. split_and!; try done.
    + congruence.
    + rewrite count_requests_app. lia.
    + rewrite count_requests_app. lia.
    + etrans; [|exact Hsub].
      destruct Hfiles as [-> | (Hnone & body & ->)]; [done|].
      by apply insert_subseteq.
    + intros path Hpath. rewrite Hother.
      * destruct Hfiles as [-> | (Hnone & body & ->)]; [done|].
        rewrite lookup_insert_ne; [done|]. intros Heq.
        apply (Hpath id); [left|by symmetry].
      * intros id' Hin. apply Hpath. by right.
Qed.

(** X4.  Whatever the network answers, the fetches of a list of
    identifiers end without raising, send at most three requests for each
    identifier of the list, leave the saved workbooks as they were, keep
    every cache file that was there with its content, and create no file
    but those of the identifiers of the list. *)
Theorem fetch_all_only_adds_to_the_cache
    (E : env) (cve_ids : list xl_value) (w : world) :
  exists w' l,
    fetch_all E cve_ids w = (Ok tt, w', l) /\
    docs w' = docs w /\
    requests w' <= requests w + 3 * length cve_ids /\
    files w ⊆ files w' /\
    (forall path, (forall id, id ∈ cve_ids -> path <> cache_filename id) ->
                  files w' !! path = files w !! path).
Proof.
  destruct (fetch_all_shape E cve_ids w)
    as (w' & l & Hrun & Hdocs & Hreq & Hn & Hsub & Hother).
  exists w', l. split_and!; try done. lia.
Qed.




(** ** What the merge leaves of a workbook *)



#[export] Instance fills_kept_or_fallback_preorder :
  PreOrder fills_kept_or_fallback.
Proof.
  split.
  - intros ws r c. by left.
  - intros x y z Hxy Hyz r c.
    destruct (Hyz r c) as [Hz|Hz]; [|by right]. rewrite Hz. apply Hxy.
Qed.



(** What [update_excel_with_cve_info] makes of its workbook, in the three
    ways it can end. *)
Lemma update_excel_workbook E basename w ws :
  docs w !! xlsx_path basename = Some ws ->
  let w' := (update_excel_with_cve_info E basename w).1.2 in
  exists fs,
    files w ⊆ fs /\ files w' = fs /\
    (docs w' = docs w \/
     exists l, merge_rows E fs ws ws = (Ok tt, (merge_rows E fs ws ws).1.2, l) /\
               docs w' = <[xlsx_path basename := (merge_rows E fs ws ws).1.2]>
                           (docs w)).
Proof.
  intros Hdoc w'. subst w'.
  destruct (decide (4 <= max_column ws \/ iter_rows ws 2 = [])) as [Hw|Hw].
  - rewrite (update_excel_unfold E basename w ws Hdoc Hw).
    set (ids := map (fun r => value (cell_at ws r 4)) (iter_rows ws 2)).
    destruct (fetch_all_shape E ids w)
      as (w1 & l1 & Hrun & Hdocs & _ & _ & Hsub & _).
    rewrite Hrun. simpl. exists (files w1). split; [done|].
    destruct (merge_rows E (files w1) ws ws) as [[[[]|e] merged] l2] eqn:Hm;
      simpl.
    + split; [done|]. right. exists l2. by rewrite Hdocs.
    + split; [done|]. by left.
  - rewrite (update_excel_narrow E basename w ws Hdoc); [|lia|].
    + exists (files w). simpl. split; [done|]. split; [done|]. by left.
    + intros Hnil. apply Hw. by right.
Qed.

(** X6.  [update_excel_with_cve_info] and the other files.  Whether it
    returns or raises: a workbook of another export is not touched; the
    export's own workbook is neither created nor removed; every cache
    file that was there is kept with its content; and when the export has
    no workbook, nothing changes at all and no request is sent. *)
Theorem update_excel_leaves_the_rest
    (E : env) (basename : string) (w : world) :
  let w' := (update_excel_with_cve_info E basename w).1.2 in
  (forall path, path <> xlsx_path basename -> docs w' !! path = docs w !! path) /\
  (is_Some (docs w' !! xlsx_path basename) <->
   is_Some (docs w !! xlsx_path basename)) /\
  files w ⊆ files w' /\
  (docs w !! xlsx_path basename = None ->
   w' = w /\ (update_excel_with_cve_info E basename w).2 =
             [Log ERROR (NoExcelFile (xlsx_path basename))]).
Proof.
  intros w'. subst w'.
  destruct (docs w !! xlsx_path basename) as [ws|] eqn:Hdoc.
  - destruct (update_excel_workbook E basename w ws Hdoc)
      as (fs & Hsub & Hfs & Hdocs).
    split_and!; [| |by rewrite Hfs|done].
    + intros path Hne. destruct Hdocs as [->|(l & _ & ->)]; [done|].
      by rewrite lookup_insert_ne.
    + destruct Hdocs as [->|(l & _ & ->)]; [by rewrite Hdoc|].
      rewrite lookup_insert_eq. split; by eexists.
  - rewrite update_excel_missing by done. simpl.
    split_and!; try done. by rewrite Hdoc.
Qed.





(** ** fill_row_with_color *)

Lemma foldl_set_fill_max_row r f cols ws :
  cols <> [] ->
  max_row (foldl (fun ws c => set_fill r c f ws) ws cols)
    = Nat.max (max_row ws) r.
Proof.
  revert ws. induction cols as [|c cols IH]; intros ws Hne; [done|].
  pose proof (max_row_ge_1 ws). simpl. destruct cols as [|c' cols'].
  - simpl. unfold set_fill. rewrite max_row_insert. lia.
  - rewrite IH by done. unfold set_fill. rewrite max_row_insert. lia.
Qed.

(** X9.  [fill_row_with_color] on a row [r >= 1]: every cell of the row
    in the columns 1 to [max_column] exists afterwards, with the value it
    had (none, if the cell was not there) and the given fill; every other
    cell is as it was; the sheet keeps its width, and it grows to [r] rows
    when the row was below its last one. *)
Theorem fill_row_with_color_fills_the_whole_row
    (r : nat) (f : fill_style) (ws : sheet) :
  1 <= r ->
  let ws' := fill_row_with_color r f ws in
  (forall c, 1 <= c <= max_column ws ->
             ws' !! (r, c) = Some (Cell (value (cell_at ws r c)) f)) /\
  (forall r' c, r' <> r \/ c < 1 \/ max_column ws < c ->
                ws' !! (r', c) = ws !! (r', c)) /\
  max_column ws' = max_column ws /\
  max_row ws' = Nat.max (max_row ws) r.
Proof.
  intros _ ws'. subst ws'. unfold fill_row_with_color. split_and!.
  - intros c Hc. rewrite foldl_set_fill_lookup, decide_True; [done|].
    split; [done|]. apply elem_of_seq. lia.
  - intros r' c Hout. rewrite foldl_set_fill_lookup, decide_False; [done|].
    intros [-> Hin]. apply elem_of_seq in Hin. lia.
  - apply fill_row_max_column.
  - apply foldl_set_fill_max_row.
    pose proof (max_column_ge_1 ws).
    destruct (max_column ws); [lia|done].
Qed.

Lemma fill_row_with_color_fills_the_whole_row_witness :
  let ws' := fill_row_with_color 5 FALLBACK_FILL Sample.two_rows in
  (forall c, 1 <= c <= max_column Sample.two_rows ->
             ws' !! (5, c)
             = Some (Cell (value (cell_at Sample.two_rows 5 c)) FALLBACK_FILL)) /\
  (forall r' c, r' <> 5 \/ c < 1 \/ max_column Sample.two_rows < c ->
                ws' !! (r', c) = Sample.two_rows !! (r', c)) /\
  max_column ws' = max_column Sample.two_rows /\
  max_row ws' = Nat.max (max_row Sample.two_rows) 5.
Proof.
  apply (fill_row_with_color_fills_the_whole_row 5 FALLBACK_FILL
           Sample.two_rows).
  lia.
Defined.

(** ** write_to_excel *)









(** X12.  Building the same report twice is building it once:
    [write_to_excel] run again on the state it left gives the same result,
    the same state and the same (empty) log. *)
Theorem write_to_excel_is_idempotent
    (basename : string) (cvedict : list (string * csv_row)) (w : world) :
  write_to_excel basename cvedict (write_to_excel basename cvedict w).1.2
  = write_to_excel basename cvedict w.
Proof.
  rewrite !write_to_excel_unfold. simpl.
  rewrite lookup_insert_eq. simpl.
  by rewrite write_rows_twice, insert_insert_eq.
Qed.

(** ** The dictionary of the report *)

Lemma assoc_dict_set {A : Type} (k k' : string) (v : A) (l : list (string * A)) :
  assoc k (dict_set k' v l) = if String.eqb k k' then Some v else assoc k l.
Proof.
  induction l as [|[k0 v0] l IH]; simpl; [done|].
  destruct (String.eqb_spec k' k0) as [->|Hne]; simpl.
  - by destruct (String.eqb k k0).
  - destruct (String.eqb_spec k k0) as [->|Hne'].
    + by rewrite (proj2 (String.eqb_neq k0 k')).
    + apply IH.
Qed.

Lemma assoc_is_Some {A : Type} (k : string) (l : list (string * A)) :
  is_Some (assoc k l) <-> k ∈ l.*1.
Proof.
  induction l as [|[k0 v0] l IH]; simpl.
  - split; [by intros [? ?] | by intros ?%elem_of_nil].
  - rewrite elem_of_cons. destruct (String.eqb_spec k k0) as [->|Hne].
    + split; [by left | by eexists].
    + rewrite IH. split; [by right|]. by intros [?|?].
Qed.

Lemma dict_set_keys {A : Type} (k : string) (v : A) (l : list (string * A)) :
  (dict_set k v l).*1 = if decide (k ∈ l.*1) then l.*1 else l.*1 ++ [k].
Proof.
  induction l as [|[k0 v0] l IH].
  - destruct (decide (k ∈ ([] : list (string * A)).*1)) as [Hin|Hout]; [|done].
    by apply elem_of_nil in Hin.
  - cbn [dict_set]. destruct (String.eqb_spec k k0) as [->|Hne].
    + destruct (decide (k0 ∈ ((k0, v0) :: l).*1)) as [Hin|Hout]; [done|].
      exfalso. apply Hout. left.
    + rewrite fmap_cons, IH. cbn [fst].
      destruct (decide (k ∈ l.*1)) as [Hin|Hout];
        destruct (decide (k ∈ ((k0, v0) :: l).*1)) as [Hin'|Hout']; try done.
      * exfalso. apply Hout'. by right.
      * rewrite fmap_cons in Hin'. cbn [fst] in Hin'.
        apply elem_of_cons in Hin' as [?|?]; done.
Qed.

Lemma dict_set_NoDup {A : Type} (k : string) (v : A) (l : list (string * A)) :
  NoDup l.*1 -> NoDup (dict_set k v l).*1.
Proof.
  intros Hl. rewrite dict_set_keys. case_decide as Hin; [done|].
  apply NoDup_app. split_and!; [done| |apply NoDup_singleton].
  intros x Hx ->%list_elem_of_singleton. done.
Qed.

Lemma rows_of_cons cve row reader :
  rows_of cve (row :: reader) =
  if decide (row !! "CVE" = Some (Some cve)) then row :: rows_of cve reader
  else rows_of cve reader.
Proof. unfold rows_of. by rewrite filter_cons. Qed.

(** The comprehension, from any dictionary it starts with. *)
Lemma build_cvedict_acc reader acc d :
  build_cvedict reader acc = Ok d ->
  (NoDup acc.*1 -> NoDup d.*1) /\
  forall k, assoc k d =
            if String.eqb k "" then assoc k acc
            else from_option Some (assoc k acc) (last (rows_of k reader)).
Proof.
  revert acc. induction reader as [|row reader IH]; intros acc Hd; simpl in Hd.
  - injection Hd as <-. split; [done|]. intros k. simpl.
    by destruct (String.eqb k "").
  - destruct (row !! "CVE") as [[cve|]|] eqn:Hrow; [| |done].
    + destruct (String.eqb_spec cve "") as [->|Hne].
      * destruct (IH acc Hd) as [Hnd Hassoc]. split; [done|].
        intros k. rewrite Hassoc, rows_of_cons.
        destruct (String.eqb_spec k "") as [->|Hk]; [done|].
        rewrite decide_False; [done|]. congruence.
      * destruct (IH _ Hd) as [Hnd Hassoc]. split.
        { intros Hacc. by apply Hnd, dict_set_NoDup. }
        intros k. rewrite Hassoc, rows_of_cons, assoc_dict_set.
        destruct (String.eqb_spec k "") as [->|Hk].
        { by rewrite (proj2 (String.eqb_neq "" cve)). }
        destruct (String.eqb_spec k cve) as [->|Hkc].
        -- rewrite decide_True by done. rewrite last_cons.
           by destruct (last (rows_of cve reader)).
        -- rewrite decide_False; [done|]. congruence.
    + destruct (IH acc Hd) as [Hnd Hassoc]. split; [done|].
      intros k. rewrite Hassoc, rows_of_cons.
      rewrite decide_False; [done|]. congruence.
Qed.

Lemma build_cvedict_outcome reader acc :
  match build_cvedict reader acc with
  | Ok _ => Forall (fun row : csv_row => is_Some (row !! "CVE")) reader
  | Raise e => e = KeyError /\
               Exists (fun row : csv_row => row !! "CVE" = None) reader
  end.
Proof.
  revert acc. induction reader as [|row reader IH]; intros acc; simpl; [done|].
  destruct (row !! "CVE") as [[cve|]|] eqn:Hrow.
  - assert (Hstep : forall acc',
              match build_cvedict reader acc' with
              | Ok _ => Forall (fun row : csv_row => is_Some (row !! "CVE"))
                               (row :: reader)
              | Raise e => e = KeyError /\
                           Exists (fun row : csv_row => row !! "CVE" = None)
                                  (row :: reader)
              end).
    { intros acc'. specialize (IH acc').
      destruct (build_cvedict reader acc') as [d|e].
      - constructor; [by rewrite Hrow|done].
      - destruct IH as [-> Hex]. split; [done|]. by apply Exists_cons_tl. }
    destruct (String.eqb cve ""); apply Hstep.
  - specialize (IH acc). destruct (build_cvedict reader acc) as [d|e].
    + constructor; [by rewrite Hrow|done].
    + destruct IH as [-> Hex]. split; [done|]. by apply Exists_cons_tl.
  - split; [done|]. by apply Exists_cons_hd.
Qed.

(** X13.  The keys of the dictionary that line 195 builds: no identifier
    occurs twice, and the identifiers are exactly the non-empty [CVE]
    fields of the export's lines. *)
Theorem build_cvedict_keys
    (reader : list csv_row) (cvedict : list (string * csv_row)) :
  build_cvedict reader [] = Ok cvedict ->
  NoDup cvedict.*1 /\
  forall cve, cve ∈ cvedict.*1 <->
              cve <> "" /\
              exists row, row ∈ reader /\ row !! "CVE" = Some (Some cve).
Proof.
  intros Hd. destruct (build_cvedict_acc reader [] cvedict Hd) as [Hnd Hassoc].
  split; [apply Hnd; constructor|].
  intros cve. rewrite <- assoc_is_Some, Hassoc. simpl.
  destruct (String.eqb_spec cve "") as [->|Hne].
  - split; [by intros [? ?] | by intros [? _]].
  - destruct (last (rows_of cve reader)) as [row|] eqn:Hlast; simpl.
    + split; [|by eexists]. intros _. split; [done|]. exists row.
      apply last_Some_elem_of in Hlast.
      apply list_elem_of_filter in Hlast as [Hrow Hin]. done.
    + split; [by intros [? ?]|]. intros (_ & row & Hin & Hrow).
      apply last_None in Hlast.
      assert (Hmem : row ∈ rows_of cve reader)
        by (apply list_elem_of_filter; done).
      rewrite Hlast in Hmem. by apply elem_of_nil in Hmem.
Qed.

Lemma build_cvedict_keys_witness :
  NoDup [("CVE-2021-44228", Sample.scan_row)].*1 /\
  forall cve, cve ∈ [("CVE-2021-44228", Sample.scan_row)].*1 <->
              cve <> "" /\
              exists row, row ∈ [Sample.scan_row; Sample.scan_row] /\
                          row !! "CVE" = Some (Some cve).
Proof.
  apply (build_cvedict_keys [Sample.scan_row; Sample.scan_row]).
  vm_compute. reflexivity.
Defined.

(** X14.  When several lines of the export carry the same identifier, the
    dictionary keeps the last of them: the entry of a non-empty identifier
    is the last line whose [CVE] field is that identifier, and there is no
    entry when no line has it. *)
Theorem build_cvedict_keeps_the_last_line
    (reader : list csv_row) (cvedict : list (string * csv_row)) (cve : string) :
  build_cvedict reader [] = Ok cvedict ->
  cve <> "" ->
  assoc cve cvedict = last (rows_of cve reader).
Proof.
  intros Hd Hne.
  destruct (build_cvedict_acc reader [] cvedict Hd) as [_ Hassoc].
  rewrite Hassoc, (proj2 (String.eqb_neq cve "")) by done. simpl.
  by destruct (last (rows_of cve reader)).
Qed.

Lemma build_cvedict_keeps_the_last_line_witness :
  assoc "CVE-2021-44228"
        [("CVE-2021-44228", <["Risk" := Some "Low"]> Sample.scan_row)]
  = last (rows_of "CVE-2021-44228"
                  [Sample.scan_row; <["Risk" := Some "Low"]> Sample.scan_row]).
Proof.
  apply (build_cvedict_keeps_the_last_line
           [Sample.scan_row; <["Risk" := Some "Low"]> Sample.scan_row]).
  - vm_compute. reflexivity.
  - discriminate.
Defined.


(** ** process_csv_file *)

Lemma process_csv_file_unfold E file reader w :
  process_csv_file E file (Some reader) w =
  match build_cvedict reader [] with
  | Ok cvedict =>
      match build_and_merge E (splitext_root (os_path_basename file)) cvedict w with
      | (Ok _, w1, l1) => (Ok tt, w1, l1)
      | (Raise e, w1, l1) => (Ok tt, w1, l1 ++ [Log ERROR (FileError file e)])
      end
  | Raise e => (Ok tt, w, [Log ERROR (FileError file e)])
  end.
Proof.
  unfold process_csv_file, try_except.
  unfold mbind at 1. unfold M_bind, bind at 1. unfold lift at 1.
  destruct (build_cvedict reader []) as [cvedict|e]; [|done].
  change (write_to_excel (splitext_root (os_path_basename file)) cvedict
            ≫= (fun _ => update_excel_with_cve_info E
                           (splitext_root (os_path_basename file))))
    with (build_and_merge E (splitext_root (os_path_basename file)) cvedict).
  by destruct (build_and_merge E _ cvedict w) as [[[[]|e] w'] l].
Qed.

(** X16.  No exception leaves [process_csv_file].  A file that is not
    there, and an export without the [CVE] column, leave the state as it
    was, with one error in the log and no request; and when the build or
    the merge raises, the exception is what the last log entry reports. *)
Theorem process_csv_file_contains_every_exception
    (E : env) (file : string) (content : option (list csv_row)) (w : world) :
  exists w' l,
    process_csv_file E file content w = (Ok tt, w', l) /\
    (content = None -> w' = w /\ l = [Log ERROR (NoCsvFile file)]) /\
    (forall reader, content = Some reader ->
       Exists (fun row : csv_row => row !! "CVE" = None) reader ->
       w' = w /\ l = [Log ERROR (FileError file KeyError)]) /\
    (forall reader cvedict e,
       content = Some reader -> build_cvedict reader [] = Ok cvedict ->
       (build_and_merge E (splitext_root (os_path_basename file)) cvedict w).1.1
         = Raise e ->
       last l = Some (Log ERROR (FileError file e))).
Proof.
  destruct content as [reader|].
  - rewrite process_csv_file_unfold.
    pose proof (build_cvedict_outcome reader []) as Hout.
    destruct (build_cvedict reader []) as [cvedict|e0] eqn:Hbuild.
    + assert (Hno : ~ Exists (fun row : csv_row => row !! "CVE" = None) reader).
      { intros (row & Hin & Hrow)%Exists_exists.
        rewrite Forall_forall in Hout. specialize (Hout row Hin).
        rewrite Hrow in Hout. by destruct Hout. }
      set (basename := splitext_root (os_path_basename file)).
      destruct (build_and_merge E basename cvedict w) as [[[[]|e] w1] l1] eqn:Hrun.
      * exists w1, l1. split_and!; [done|done| |].
        -- by intros reader' [= <-] Hex.
        -- intros reader' cvedict' e [= <-] Hb He.
           rewrite Hbuild in Hb. injection Hb as <-.
           fold basename in He. rewrite Hrun in He. discriminate He.
      * exists w1, (l1 ++ [Log ERROR (FileError file e)]).
        split_and!; [done|done| |].
        -- by intros reader' [= <-] Hex.
        -- intros reader' cvedict' e' [= <-] Hb He.
           rewrite Hbuild in Hb. injection Hb as <-.
           fold basename in He. rewrite Hrun in He. injection He as <-.
           apply last_snoc.
    + destruct Hout as [-> Hex].
      exists w, [Log ERROR (FileError file KeyError)].
      split_and!; [done|done|done|].
      intros reader' cvedict' e [= <-] Hb. rewrite Hbuild in Hb. discriminate Hb.
  - exists w, [Log ERROR (NoCsvFile file)]. split_and!; done.
Qed.

(** ** Paths *)

Lemma string_app_nil_l (s : string) : "" +:+ s = s.
Proof. reflexivity. Qed.

Lemma string_app_cons (c : ascii) (s t : string) :
  String c s +:+ t = String c (s +:+ t).
Proof. reflexivity. Qed.

Lemma string_length_app (s t : string) :
  String.length (s +:+ t) = String.length s + String.length t.
Proof.
  induction s as [|c s IH]; [done|].
  rewrite string_app_cons. simpl. by rewrite IH.
Qed.

Lemma string_app_inj_r (s1 s2 t : string) : s1 +:+ t = s2 +:+ t -> s1 = s2.
Proof.
  revert s2.
  induction s1 as [|c s1 IH]; intros [|c2 s2] Heq;
    rewrite ?string_app_nil_l, ?string_app_cons in Heq.
  - done.
  - apply (f_equal String.length) in Heq. simpl in Heq.
    rewrite (string_length_app s2 t) in Heq. lia.
  - apply (f_equal String.length) in Heq. simpl in Heq.
    rewrite (string_length_app s1 t) in Heq. lia.
  - injection Heq as -> Heq. by rewrite (IH s2 Heq).
Qed.

Lemma string_app_nil_r (s : string) : s +:+ "" = s.
Proof.
  induction s as [|c s IH]; [done|]. by rewrite string_app_cons, IH.
Qed.

Lemma string_app_assoc (s t u : string) : (s +:+ t) +:+ u = s +:+ t +:+ u.
Proof.
  induction s as [|c s IH]; [done|]. by rewrite !string_app_cons, IH.
Qed.

Lemma prefix_char (c d : ascii) (s : string) :
  String.prefix (String c "") (String d s) = bool_decide (c = d).
Proof.
  simpl. destruct (ascii_dec c d) as [->|Hne].
  - rewrite bool_decide_eq_true_2 by done. by destruct s.
  - by rewrite bool_decide_eq_false_2.
Qed.

Lemma no_slash_cons (c : ascii) (s : string) :
  substring_of "/" (String c s) = false ->
  c <> "/"%char /\ substring_of "/" s = false.
Proof.
  intros H. cbn [substring_of] in H. rewrite prefix_char in H.
  apply orb_false_iff in H as [Hc Hs]. split; [|done].
  apply bool_decide_eq_false in Hc. congruence.
Qed.

Lemma basename_go_no_slash (s acc : string) :
  substring_of "/" s = false -> basename_go s acc = acc +:+ s.
Proof.
  revert acc. induction s as [|c s IH]; intros acc Hs; simpl.
  - by rewrite string_app_nil_r.
  - apply no_slash_cons in Hs as [Hc Hs].
    rewrite (proj2 (Ascii.eqb_neq c "/") Hc), IH by done.
    by rewrite string_app_assoc.
Qed.

Lemma ends_with_app (suffix s : string) :
  ends_with suffix s = true -> exists stem, s = stem +:+ suffix.
Proof.
  induction s as [|c s IH]; simpl; intros H.
  - apply orb_true_iff in H as [H|H]; [|done].
    apply String.eqb_eq in H as ->. by exists "".
  - apply orb_true_iff in H as [H|H].
    + apply String.eqb_eq in H as ->. by exists "".
    + destruct (IH H) as [stem ->]. by exists (String c stem).
Qed.

Lemma splitext_go_csv (stem : string) :
  splitext_go (stem +:+ ".csv") true = Some stem.
Proof.
  induction stem as [|c stem IH]; [reflexivity|].
  rewrite string_app_cons. cbn [splitext_go orb]. by rewrite IH.
Qed.

(** X17.  From a name in the folder to the name of the workbook (line
    187): for an entry that [*.csv] matches, the basename of the path that
    [glob] gives is the entry's name, its root is the name without the
    final [.csv], dots before it included, and the workbook is that root
    followed by [_result.xlsx]. *)
Theorem csv_name_gives_the_workbook_name (name : string) :
  matches_csv name = true ->
  substring_of "/" name = false ->
  exists stem,
    name = stem +:+ ".csv" /\ stem <> "" /\
    os_path_basename (os_path_join CSV_DIR name) = name /\
    splitext_root (os_path_basename (os_path_join CSV_DIR name)) = stem /\
    xlsx_path (splitext_root (os_path_basename (os_path_join CSV_DIR name)))
      = stem +:+ "_result.xlsx".
Proof.
  intros Hm Hslash. unfold matches_csv in Hm.
  apply andb_true_iff in Hm as [Hdot Hend]. apply negb_true_iff in Hdot.
  destruct (ends_with_app _ _ Hend) as [stem ->]. exists stem.
  destruct stem as [|c stem]; [done|].
  assert (Hc : c <> "."%char).
  { rewrite string_app_cons in Hdot. rewrite prefix_char in Hdot.
    apply bool_decide_eq_false in Hdot. congruence. }
  assert (Hbase : os_path_basename (os_path_join CSV_DIR (String c stem +:+ ".csv"))
                  = String c stem +:+ ".csv").
  { pose proof (no_slash_cons _ _ Hslash) as [Hc' _].
    unfold os_path_join. rewrite string_app_cons, prefix_char.
    rewrite bool_decide_eq_false_2 by congruence.
    unfold os_path_basename, CSV_DIR.
    rewrite !string_app_cons, !string_app_nil_l. rewrite <- string_app_cons.
    change (basename_go (String "c" (String "s" (String "v" (String "/" ?s)))) "")
      with (basename_go s "").
    apply (basename_go_no_slash _ "" Hslash). }
  assert (Hroot : splitext_root (String c stem +:+ ".csv") = String c stem).
  { unfold splitext_root. rewrite string_app_cons. cbn [splitext_go orb].
    rewrite (proj2 (Ascii.eqb_neq c ".") Hc). cbn [negb].
    by rewrite splitext_go_csv. }
  rewrite Hbase, Hroot. split_and!; done.
Qed.

Lemma csv_name_gives_the_workbook_name_witness :
  exists stem,
    "scan.v2.csv" = stem +:+ ".csv" /\ stem <> "" /\
    os_path_basename (os_path_join CSV_DIR "scan.v2.csv") = "scan.v2.csv" /\
    splitext_root (os_path_basename (os_path_join CSV_DIR "scan.v2.csv"))
      = stem /\
    xlsx_path (splitext_root (os_path_basename
                                (os_path_join CSV_DIR "scan.v2.csv")))
      = stem +:+ "_result.xlsx".
Proof.
  apply (csv_name_gives_the_workbook_name "scan.v2.csv"); reflexivity.
Defined.

(** X18.  Two identifiers share a cache file exactly when they have the
    same text: the path is one-to-one on texts, whether the text is
    relative (the file is under [cache]) or starts with a slash (the join
    then drops the folder). *)
Theorem cache_filename_by_text (a b : xl_value) :
  cache_filename a = cache_filename b <-> fstr a = fstr b.
Proof.
  split; [|unfold cache_filename; by intros ->].
  unfold cache_filename, os_path_join.
  generalize (fstr a) (fstr b). clear a b. intros a b.
  assert (Habs : forall s t : string,
            String.prefix "/" (s +:+ ".json") = true ->
            s +:+ ".json" <> CACHE_PATH +:+ "/" +:+ t).
  { intros [|c s] t Hp Heq; [done|].
    rewrite string_app_cons in Hp, Heq. rewrite prefix_char in Hp.
    apply bool_decide_eq_true in Hp as <-. done. }
  destruct (String.prefix "/" (a +:+ ".json")) eqn:Ha;
    destruct (String.prefix "/" (b +:+ ".json")) eqn:Hb; intros Heq.
  - by apply string_app_inj_r in Heq.
  - by apply Habs in Heq.
  - symmetry in Heq. by apply Habs in Heq.
  - apply (inj (String.append _)) in Heq. apply (inj (String.append _)) in Heq.
    by apply string_app_inj_r in Heq.
Qed.

(** ** One run against a network that answers *)




(** ** main *)

Lemma update_excel_grows E basename w :
  files w ⊆ files (update_excel_with_cve_info E basename w).1.2 /\
  forall path, is_Some (docs w !! path) ->
    is_Some (docs (update_excel_with_cve_info E basename w).1.2 !! path).
Proof.
  destruct (docs w !! xlsx_path basename) as [ws|] eqn:Hdoc.
  - destruct (update_excel_workbook E basename w ws Hdoc)
      as (fs & Hsub & Hfs & Hdocs).
    split; [by rewrite Hfs|]. intros path Hpath.
    destruct Hdocs as [->|(l & _ & ->)]; [done|].
    destruct (decide (path = xlsx_path basename)) as [->|Hne].
    + rewrite lookup_insert_eq. by eexists.
    + by rewrite lookup_insert_ne.
  - by rewrite update_excel_missing.
Qed.

Lemma process_csv_file_grows E file content w :
  exists w' l,
    process_csv_file E file content w = (Ok tt, w', l) /\
    files w ⊆ files w' /\
    forall path, is_Some (docs w !! path) -> is_Some (docs w' !! path).
Proof.
  destruct content as [reader|]; [|by exists w, [Log ERROR (NoCsvFile file)]].
  rewrite process_csv_file_unfold.
  destruct (build_cvedict reader []) as [cvedict|e];
    [|by exists w, [Log ERROR (FileError file e)]].
  set (basename := splitext_root (os_path_basename file)).
  pose proof (build_and_merge_state E basename cvedict w) as Hstate.
  set (w0 := World (cache_dir w) (files w)
               (<[xlsx_path basename :=
                    write_rows (rows_to_write cvedict)
                      (default (write_header ∅) (docs w !! xlsx_path basename))]>
                  (docs w))
               (requests w)) in Hstate.
  destruct (update_excel_grows E basename w0) as [Hfiles Hdocs].
  rewrite <- Hstate in Hfiles, Hdocs.
  assert (Hw0 : forall path, is_Some (docs w !! path) ->
                             is_Some (docs w0 !! path)).
  { intros path Hpath. simpl.
    destruct (decide (path = xlsx_path basename)) as [->|Hne].
    - rewrite lookup_insert_eq. by eexists.
    - by rewrite lookup_insert_ne. }
  destruct (build_and_merge E basename cvedict w) as [[[[]|e] w1] l1];
    simpl in *; eexists _, _; (split; [reflexivity|]); split; auto.
Qed.

Lemma announced_steps (l : list event) : announced (map Step l) = [].
Proof. induction l as [|ev l IH]; [done|]. exact IH. Qed.

Lemma basename_of_joined (name : string) :
  substring_of "/" name = false ->
  os_path_basename (os_path_join CSV_DIR name) = name.
Proof.
  intros Hslash. unfold os_path_join.
  assert (Hp : String.prefix "/" name = false).
  { destruct name as [|c name]; [done|].
    apply no_slash_cons in Hslash as [Hc _].
    rewrite prefix_char. by rewrite bool_decide_eq_false_2. }
  rewrite Hp. unfold os_path_basename, CSV_DIR.
  rewrite !string_app_cons, !string_app_nil_l.
  change (basename_go (String "c" (String "s" (String "v" (String "/" ?s)))) "")
    with (basename_go s "").
  apply (basename_go_no_slash _ "" Hslash).
Qed.

Lemma process_files_run E fs w :
  exists w' l,
    process_files E fs w = (Ok tt, w', l) /\
    files w ⊆ files w' /\
    (forall path, is_Some (docs w !! path) -> is_Some (docs w' !! path)) /\
    announced l = map (fun entry => os_path_basename entry.1) fs /\
    (fs = [] -> w' = w /\ l = []).
Proof.
  revert w. induction fs as [|[file content] fs IH]; intros w.
  - exists w, []. by split_and!.
  - destruct (process_csv_file_grows E file content w)
      as (w1 & l1 & Hrun & Hfiles1 & Hdocs1).
    destruct (IH w1) as (w2 & l2 & Hrest & Hfiles2 & Hdocs2 & Hnames & _).
    cbn [process_files]. rewrite Hrun, Hrest.
    eexists _, _. split; [reflexivity|]. split_and!.
    + by etrans.
    + auto.
    + unfold announced in *. cbn [omap list_omap map fst].
      fold (@omap list _ _ _
              (fun ev => match ev with
                         | MainLog INFO (ProcessingCsv name) => Some name
                         | _ => None
                         end)).
      rewrite omap_app. fold (announced (map Step l1)).
      by rewrite announced_steps, Hnames.
    + done.
Qed.


Lemma filter_none {A : Type} (P : A -> Prop) `{!forall x, Decision (P x)}
    (l : list A) :
  (forall x, x ∈ l -> ~ P x) -> filter P l = [].
Proof.
  induction l as [|x l IH]; intros Hall; [done|].
  rewrite filter_cons_False by (apply Hall; left).
  apply IH. intros y Hy. apply Hall. by right.
Qed.

(** X21.  A run without work.  When no entry of the folder matches
    [*.csv], [main] leaves the state as it was and sends no request; it
    reports a missing folder (two errors) and an empty one (one critical
    entry), but a folder that holds only other files is passed over in
    silence: the log is [Started], [Finished]. *)
Theorem main_without_csv_files (E : env) (d : disk) :
  (forall entries entry, csv_dir d = Some entries -> entry ∈ entries ->
                         matches_csv entry.1 = false) ->
  state (main E d).1.2 = state d /\
  (main E d).2 =
    match csv_dir d with
    | None => [MainLog INFO Started; MainLog ERROR (FolderNotFound CSV_DIR);
               MainLog ERROR MoveCsvFile; MainLog INFO Finished]
    | Some [] => [MainLog INFO Started; MainLog CRITICAL NoCsvFiles;
                  MainLog INFO Finished]
    | Some _ => [MainLog INFO Started; MainLog INFO Finished]
    end.
Proof.
  intros Hnone. unfold main.
  destruct (csv_dir d) as [[|entry entries]|] eqn:Hdir; [done| |done].
  assert (Hglob : glob_csv (entry :: entries) = []).
  { unfold glob_csv.
    replace (filter (fun entry0 => matches_csv entry0.1 = true)
                    (entry :: entries)) with
      ([] : list (string * option (list csv_row))); [done|].
    symmetry. apply filter_none. intros x Hx.
    by rewrite (Hnone _ x eq_refl Hx). }
  by rewrite Hglob.
Qed.

Lemma main_without_csv_files_witness :
  state (main Sample.down
              (Disk (Some [("notes.txt", None)]) Sample.fresh)).1.2
    = Sample.fresh /\
  (main Sample.down (Disk (Some [("notes.txt", None)]) Sample.fresh)).2
    = [MainLog INFO Started; MainLog INFO Finished].
Proof.
  apply (main_without_csv_files Sample.down
           (Disk (Some [("notes.txt", None)]) Sample.fresh)).
  intros entries entry [= <-] Hin.
  apply list_elem_of_singleton in Hin as ->. reflexivity.
Defined.

(** X22.  [main] goes through the folder once: the files it announces
    are the names of the entries that match [*.csv], each once, in the
    order of the listing. *)
Theorem main_announces_every_csv_file
    (E : env) (d : disk) (entries : list (string * option (list csv_row))) :
  csv_dir d = Some entries ->
  (forall entry, entry ∈ entries -> substring_of "/" entry.1 = false) ->
  announced (main E d).2
  = map fst (filter (fun entry => matches_csv entry.1 = true) entries).
Proof.
  intros Hdir Hslash. unfold main. rewrite Hdir.
  destruct entries as [|entry entries]; [done|].
  destruct (process_files_run E (glob_csv (entry :: entries)) (state d))
    as (w' & l & Hrun & _ & _ & Hnames & _).
  rewrite Hrun. cbn [snd].
  change (announced (MainLog INFO Started :: l ++ [MainLog INFO Finished]))
    with (announced (l ++ [MainLog INFO Finished])).
  unfold announced in *. rewrite omap_app, Hnames. cbn [omap list_omap].
  rewrite app_nil_r. unfold glob_csv. rewrite map_map.
  apply map_ext_in. intros x Hx. cbn [fst].
  apply basename_of_joined, Hslash.
  apply list_elem_of_In in Hx.
  by apply list_elem_of_filter in Hx as [_ Hx].
Qed.

Lemma main_announces_every_csv_file_witness :
  announced
    (main Sample.down
          (Disk (Some [("notes.txt", None); ("scan.csv", None)])
                Sample.fresh)).2
  = map fst (filter (fun entry : string * option (list csv_row) =>
                       matches_csv entry.1 = true)
                    [("notes.txt", None); ("scan.csv", None)]).
Proof.
  apply (main_announces_every_csv_file Sample.down
           (Disk (Some [("notes.txt", None); ("scan.csv", None)])
                 Sample.fresh)).
  - reflexivity.
  - intros entry Hin.
    apply elem_of_cons in Hin as [->|Hin]; [reflexivity|].
    apply list_elem_of_singleton in Hin as ->. reflexivity.
Defined.

(** ** A version that the record has *)

Lemma bind_Ok_inv {S A B : Type} (m : M S A) (k : A -> M S B) s b s' l :
  (m ≫= k) s = (Ok b, s', l) ->
  exists a s1 l1 l2,
    m s = (Ok a, s1, l1) /\ k a s1 = (Ok b, s', l2) /\ l = l1 ++ l2.
Proof.
  unfold mbind, M_bind, bind.
  destruct (m s) as [[[a|e] s1] l1]; [|done].
  destruct (k a s1) as [[r s2] l2] eqn:Hk. intros [= -> -> <-].
  by exists a, s1, l1, l2.
Qed.

Lemma lift_bind_Ok_inv {S A B : Type} (x : result A) (k : A -> M S B) s b s' l :
  (lift x ≫= k) s = (Ok b, s', l) ->
  exists a, x = Ok a /\ k a s = (Ok b, s', l).
Proof.
  intros (a & s1 & l1 & l2 & Hx & Hk & ->)%bind_Ok_inv.
  unfold lift in Hx. injection Hx as -> <- <-. by exists a.
Qed.

Lemma score_keys_differ (label : string) :
  label +:+ "BS" <> label +:+ "Vector".
Proof. by intros ?%(inj (String.append label)). Qed.

(** One pass of the loop that returns: the version is absent and nothing
    changes, or its score and vector are recorded and written. *)
Lemma cvss_step_inv E r cvss_dicts scores key label ws scores' ws' l :
  cvss_step E r cvss_dicts scores (key, label) ws = (Ok scores', ws', l) ->
  l = [] /\
  ((contains key cvss_dicts = Ok false /\ scores' = scores /\ ws' = ws) \/
   (exists metric first cvss_data base_score vector cB cV,
      contains key cvss_dicts = Ok true /\
      item cvss_dicts key = Ok metric /\
      item0 metric = Ok first /\
      item first "cvssData" = Ok cvss_data /\
      item cvss_data "baseScore" = Ok base_score /\
      item cvss_data "vectorString" = Ok vector /\
      column (label +:+ "BS") = Ok cB /\
      column (label +:+ "Vector") = Ok cV /\
      scores' = dict_set (label +:+ "Vector")
                  (replace ("CVSS:" +:+ label +:+ "/") ""
                           (str (py_repr E) vector))
                  (dict_set (label +:+ "BS") (str (py_repr E) base_score)
                            scores) /\
      ws' = set_value r cV
              (XStr (replace ("CVSS:" +:+ label +:+ "/") ""
                             (str (py_repr E) vector)))
              (set_value r cB (XStr (str (py_repr E) base_score)) ws))).
Proof.
  unfold cvss_step. intros H.
  apply lift_bind_Ok_inv in H as ([|] & Hc & H).
  - apply lift_bind_Ok_inv in H as (metric & Hmetric & H).
    apply lift_bind_Ok_inv in H as (first & Hfirst & H).
    apply lift_bind_Ok_inv in H as (cvss_data & Hdata & H).
    apply lift_bind_Ok_inv in H as (base_score & Hbs & H).
    apply lift_bind_Ok_inv in H as (vector & Hvec & H).
    apply lift_bind_Ok_inv in H as (bs & Hscore & H).
    apply lift_bind_Ok_inv in H as (cB & HcB & H).
    apply bind_Ok_inv in H as ([] & ws1 & l1 & l2 & Hset1 & H & ->).
    apply lift_bind_Ok_inv in H as (vec & Hscore' & H).
    apply lift_bind_Ok_inv in H as (cV & HcV & H).
    apply bind_Ok_inv in H as ([] & ws2 & l3 & l4 & Hset2 & H & ->).
    unfold modify in Hset1, Hset2. unfold mret, M_ret, ret in H.
    injection Hset1 as <- <-. injection Hset2 as <- <-. injection H as <- <- <-.
    unfold score in Hscore, Hscore'.
    rewrite !assoc_dict_set in Hscore, Hscore'.
    rewrite String.eqb_refl in Hscore'.
    rewrite (proj2 (String.eqb_neq _ _) (score_keys_differ label)),
            String.eqb_refl in Hscore.
    injection Hscore as <-. injection Hscore' as <-.
    split; [done|]. right.
    by exists metric, first, cvss_data, base_score, vector, cB, cV.
  - unfold mret, M_ret, ret in H. injection H as <- <- <-.
    split; [done|]. by left.
Qed.

Lemma fold_m_cons_Ok_inv {S A B : Type} (f : B -> A -> M S B) b x l s b' s' ev :
  fold_m f b (x :: l) s = (Ok b', s', ev) ->
  exists b1 s1 ev1 ev2,
    f b x s = (Ok b1, s1, ev1) /\ fold_m f b1 l s1 = (Ok b', s', ev2) /\
    ev = ev1 ++ ev2.
Proof. intros H. by apply bind_Ok_inv in H. Qed.

(** A pass for another version leaves the score and the cells of this
    one. *)
Lemma cvss_step_keeps E r cvss_dicts scores key' label' ws scores' ws' l
    key label cB cV :
  (key', label') ∈ cvss_versions -> (key, label) ∈ cvss_versions ->
  label' <> label ->
  cvss_step E r cvss_dicts scores (key', label') ws = (Ok scores', ws', l) ->
  column (label +:+ "BS") = Ok cB -> column (label +:+ "Vector") = Ok cV ->
  assoc (label +:+ "BS") scores' = assoc (label +:+ "BS") scores /\
  cell_at ws' r cB = cell_at ws r cB /\
  cell_at ws' r cV = cell_at ws r cV.
Proof.
  intros H' H Hne Hstep HcB HcV.
  apply cvss_step_inv in Hstep as [_ [(_ & -> & ->)|Hstep]]; [done|].
  destruct Hstep as (metric & first & cvss_data & base_score & vector & cB' & cV'
                     & _ & _ & _ & _ & _ & _ & HcB' & HcV' & -> & ->).
  unfold cvss_versions in H, H'.
  repeat (apply elem_of_cons in H as [H|H]; [injection H as -> ->|]);
    [..|by apply elem_of_nil in H];
    (repeat (apply elem_of_cons in H' as [H'|H']; [injection H' as -> ->|]);
     [..|by apply elem_of_nil in H']);
    try done;
    vm_compute in HcB, HcV, HcB', HcV';
    injection HcB as <-; injection HcV as <-;
    injection HcB' as <-; injection HcV' as <-;
    (split; [rewrite !assoc_dict_set; reflexivity|]);
    rewrite !cell_at_set_value;
    rewrite !decide_False by (intros [=]); done.
Qed.

Lemma fold_cvss_keeps E r cvss_dicts versions scores ws scores' ws' l
    key label cB cV :
  Forall (fun v => v ∈ cvss_versions) versions ->
  (key, label) ∈ cvss_versions ->
  label ∉ versions.*2 ->
  fold_m (cvss_step E r cvss_dicts) scores versions ws = (Ok scores', ws', l) ->
  column (label +:+ "BS") = Ok cB -> column (label +:+ "Vector") = Ok cV ->
  assoc (label +:+ "BS") scores' = assoc (label +:+ "BS") scores /\
  cell_at ws' r cB = cell_at ws r cB /\
  cell_at ws' r cV = cell_at ws r cV.
Proof.
  intros Hall Hin. revert scores ws l.
  induction versions as [|[key' label'] versions IH];
    intros scores ws l Hout Hfold HcB HcV.
  - by injection Hfold as <- <- <-.
  - apply fold_m_cons_Ok_inv in Hfold
      as (scores1 & ws1 & l1 & l2 & Hstep & Hfold & ->).
    apply Forall_cons in Hall as [Hv Hall].
    rewrite fmap_cons, not_elem_of_cons in Hout. destruct Hout as [Hne Hout].
    destruct (cvss_step_keeps _ _ _ _ _ _ _ _ _ _ _ _ cB cV Hv Hin
                ltac:(done) Hstep HcB HcV) as (H1 & H2 & H3).
    destruct (IH Hall _ _ _ Hout Hfold HcB HcV) as (H4 & H5 & H6).
    split_and!; by etrans.
Qed.

(** The loop over the versions writes values only: it logs nothing and
    no cell changes its fill. *)
Lemma fold_cvss_fills E r cvss_dicts versions scores ws scores' ws' l :
  fold_m (cvss_step E r cvss_dicts) scores versions ws = (Ok scores', ws', l) ->
  l = [] /\ forall r' c, fill (cell_at ws' r' c) = fill (cell_at ws r' c).
Proof.
  revert scores ws l.
  induction versions as [|[key label] versions IH]; intros scores ws l Hfold.
  - by injection Hfold as <- <- <-.
  - apply fold_m_cons_Ok_inv in Hfold
      as (scores1 & ws1 & l1 & l2 & Hstep & Hfold & ->).
    destruct (IH _ _ _ Hfold) as [-> Hfills].
    apply cvss_step_inv in Hstep as [-> Hstep]. split; [done|].
    intros r' c. rewrite Hfills.
    destruct Hstep as [(_ & _ & ->)|Hstep]; [done|].
    destruct Hstep as (metric & first & cvss_data & base_score & vector & cB & cV
                       & _ & _ & _ & _ & _ & _ & _ & _ & _ & ->).
    rewrite !cell_at_set_value.
    repeat case_decide; simplify_eq; simpl; try done.
Qed.

Lemma item_contains (v : json) (key : string) (x : json) :
  item v key = Ok x -> contains key v = Ok true.
Proof.
  destruct v as [| | | | | |fields]; try done. simpl.
  destruct (assoc key fields) eqn:Hk; [|done]. intros _.
  by rewrite bool_decide_eq_true_2.
Qed.

(** The loop over the versions records a version that the record has. *)
Lemma fold_cvss_records E r cvss_dicts versions scores ws scores' ws' l
    key label metric first cvss_data base_score vector :
  NoDup versions.*2 ->
  Forall (fun v => v ∈ cvss_versions) versions ->
  (key, label) ∈ versions ->
  item cvss_dicts key = Ok metric ->
  item0 metric = Ok first ->
  item first "cvssData" = Ok cvss_data ->
  item cvss_data "baseScore" = Ok base_score ->
  item cvss_data "vectorString" = Ok vector ->
  fold_m (cvss_step E r cvss_dicts) scores versions ws = (Ok scores', ws', l) ->
  exists cB cV,
    column (label +:+ "BS") = Ok cB /\ column (label +:+ "Vector") = Ok cV /\
    assoc (label +:+ "BS") scores' = Some (str (py_repr E) base_score) /\
    value (cell_at ws' r cB) = XStr (str (py_repr E) base_score) /\
    value (cell_at ws' r cV)
      = XStr (replace ("CVSS:" +:+ label +:+ "/") "" (str (py_repr E) vector)).
Proof.
  intros Hnd Hall Hin Hmetric Hfirst Hdata Hbs Hvec. revert scores ws l.
  induction versions as [|[key' label'] versions IH]; intros scores ws l Hfold.
  - by apply elem_of_nil in Hin.
  - apply fold_m_cons_Ok_inv in Hfold
      as (scores1 & ws1 & l1 & l2 & Hstep & Hfold & ->).
    rewrite fmap_cons in Hnd. apply NoDup_cons in Hnd as [Hout Hnd].
    apply Forall_cons in Hall as [Hv Hall].
    apply elem_of_cons in Hin as [[= <- <-]|Hin]; [|by eapply IH].
    apply cvss_step_inv in Hstep as [_ Hstep].
    destruct Hstep as [(Habs & _ & _)|Hstep].
    { by rewrite (item_contains _ _ _ Hmetric) in Habs. }
    destruct Hstep as (metric' & first' & cvss_data' & base_score' & vector'
                       & cB & cV & _ & Hmetric' & Hfirst' & Hdata' & Hbs' & Hvec'
                       & HcB & HcV & -> & ->).
    rewrite Hmetric in Hmetric'. injection Hmetric' as <-.
    rewrite Hfirst in Hfirst'. injection Hfirst' as <-.
    rewrite Hdata in Hdata'. injection Hdata' as <-.
    rewrite Hbs in Hbs'. injection Hbs' as <-.
    rewrite Hvec in Hvec'. injection Hvec' as <-.
    destruct (fold_cvss_keeps _ _ _ _ _ _ _ _ _ _ _ cB cV Hall Hv Hout Hfold
                HcB HcV) as (Hs & HB & HV).
    exists cB, cV. split_and!; [done|done|..].
    + rewrite Hs, !assoc_dict_set.
      rewrite (proj2 (String.eqb_neq _ _) (score_keys_differ label)).
      by rewrite String.eqb_refl.
    + rewrite HB, !cell_at_set_value.
      assert (cV <> cB).
      { intros ->. clear -Hv HcB HcV.
        unfold cvss_versions in Hv.
        repeat (apply elem_of_cons in Hv as [Hv|Hv];
                [injection Hv as -> ->; vm_compute in HcB, HcV;
                 by simplify_eq|]).
        by apply elem_of_nil in Hv. }
      rewrite decide_False by (intros [=]; done).
      by rewrite decide_True.
    + rewrite HV, cell_at_set_value. by rewrite decide_True.
Qed.

Lemma assoc_elem_of {A : Type} (k : string) (v : A) (l : list (string * A)) :
  assoc k l = Some v -> (k, v) ∈ l.
Proof.
  induction l as [|[k0 v0] l IH]; simpl; [done|].
  destruct (String.eqb_spec k k0) as [->|Hne].
  - intros [= ->]. left.
  - intros H. right. by apply IH.
Qed.

(** X23.  A version that the record has.  When the merge of a row gets
    through the loop over the versions and the record holds one of them
    with its score and its vector, the row's two cells of that version
    hold, as text, the score and the vector after the replacement of line
    167; and unless that score reads "N/A", no cell changes its fill and
    the scores are logged, this one among them. *)
Theorem write_scores_records_a_version
    (E : env) (r : nat) (cveid : xl_value) (cvss_dicts : json)
    (ws ws' : sheet) (l : list event) (key label : string)
    (metric first cvss_data base_score vector : json) :
  (key, label) ∈ cvss_versions ->
  item cvss_dicts key = Ok metric ->
  item0 metric = Ok first ->
  item first "cvssData" = Ok cvss_data ->
  item cvss_data "baseScore" = Ok base_score ->
  item cvss_data "vectorString" = Ok vector ->
  write_scores E r cveid cvss_dicts ws = (Ok tt, ws', l) ->
  exists cB cV,
    column (label +:+ "BS") = Ok cB /\ column (label +:+ "Vector") = Ok cV /\
    value (cell_at ws' r cB) = XStr (str (py_repr E) base_score) /\
    value (cell_at ws' r cV)
      = XStr (replace ("CVSS:" +:+ label +:+ "/") "" (str (py_repr E) vector)) /\
    (str (py_repr E) base_score <> "N/A" ->
     (forall r' c, fill (cell_at ws' r' c) = fill (cell_at ws r' c)) /\
     exists scores,
       l = [Log INFO (BaseScores (fstr cveid) scores)] /\
       (label +:+ "BS", str (py_repr E) base_score) ∈ scores).
Proof.
  intros Hin Hmetric Hfirst Hdata Hbs Hvec Hrun.
  unfold write_scores in Hrun.
  apply bind_Ok_inv in Hrun as (scores & ws1 & l1 & l2 & Hfold & Hrest & ->).
  destruct (fold_cvss_fills _ _ _ _ _ _ _ _ _ Hfold) as [-> Hfills].
  destruct (fold_cvss_records E r cvss_dicts cvss_versions initial_scores ws
              scores ws1 [] key label metric first cvss_data base_score vector)
    as (cB & cV & HcB & HcV & Hscore & HB & HV); try done.
  { apply (bool_decide_unpack _). vm_compute. exact I. }
  { by apply Forall_forall. }
  assert (Hkey : substring_of "BS" (label +:+ "BS") = true).
  { clear -Hin. unfold cvss_versions in Hin.
    repeat (apply elem_of_cons in Hin as [Hin|Hin];
            [by injection Hin as -> ->|]).
    by apply elem_of_nil in Hin. }
  assert (Hmem : (label +:+ "BS", str (py_repr E) base_score)
                 ∈ filter (fun kv : string * string =>
                             substring_of "BS" kv.1 = true) scores).
  { apply list_elem_of_filter. split; [done|]. by apply assoc_elem_of. }
  exists cB, cV. split; [done|]. split; [done|].
  destruct (forallb _ _) eqn:Hall.
  - apply bind_Ok_inv in Hrest as ([] & ws2 & l3 & l4 & Hlog & Hfill & ->).
    injection Hlog as <- <-. injection Hfill as <- <-.
    rewrite !fill_row_value. split; [done|]. split; [done|].
    intros Hscored. exfalso. apply Hscored.
    rewrite forallb_forall in Hall.
    specialize (Hall _ (proj1 (list_elem_of_In _ _) Hmem)).
    by apply String.eqb_eq in Hall.
  - injection Hrest as <- <-. split; [done|]. split; [done|].
    intros _. split; [done|]. by eexists.
Qed.

Lemma write_scores_records_a_version_witness :
  exists cB cV,
    column ("V31" +:+ "BS") = Ok cB /\ column ("V31" +:+ "Vector") = Ok cV /\
    value (cell_at (write_scores (Sample.answers Sample.log4shell) 2
                      (XStr "CVE-2021-44228") Sample.metrics31
                      Sample.two_rows).1.2 2 cB)
      = XStr "10.0" /\
    value (cell_at (write_scores (Sample.answers Sample.log4shell) 2
                      (XStr "CVE-2021-44228") Sample.metrics31
                      Sample.two_rows).1.2 2 cV)
      = XStr Sample.vector31.
Proof.
  destruct (write_scores_records_a_version
              (Sample.answers Sample.log4shell) 2 (XStr "CVE-2021-44228")
              Sample.metrics31 Sample.two_rows
              (write_scores (Sample.answers Sample.log4shell) 2
                 (XStr "CVE-2021-44228") Sample.metrics31 Sample.two_rows).1.2
              (write_scores (Sample.answers Sample.log4shell) 2
                 (XStr "CVE-2021-44228") Sample.metrics31 Sample.two_rows).2
              "cvssMetricV31" "V31"
              (JArr [JObj [("cvssData", Sample.cvss_data31)]])
              (JObj [("cvssData", Sample.cvss_data31)])
              Sample.cvss_data31 (JFloat "10.0") (JStr Sample.vector31))
    as (cB & cV & HcB & HcV & HB & HV & _).
  - vm_compute. do 2 right. left.
  - reflexivity.
  - reflexivity.
  - reflexivity.
  - reflexivity.
  - reflexivity.
  - vm_compute. reflexivity.
  - exists cB, cV. split; [exact HcB|]. split; [exact HcV|].
    split; [exact HB|exact HV].
Defined.

Lemma replace_absent (old new s : string) :
  substring_of old s = false -> replace old new s = s.
Proof.
  unfold replace. induction s as [|c s IH]; [done|].
  cbn [substring_of replace_go]. intros [Hp Hs]%orb_false_iff.
  by rewrite Hp, IH.
Qed.

(** X24.  What line 167 removes.  The text that is replaced is [CVSS:],
    the column label and a slash; a vector that does not contain it, as
    one that starts with [CVSS:3.1/], is written to the vector cell as it
    is in the record. *)
Theorem vector_without_the_label_is_kept
    (E : env) (r : nat) (cveid : xl_value) (cvss_dicts : json)
    (ws ws' : sheet) (l : list event) (key label : string)
    (metric first cvss_data base_score vector : json) :
  (key, label) ∈ cvss_versions ->
  item cvss_dicts key = Ok metric ->
  item0 metric = Ok first ->
  item first "cvssData" = Ok cvss_data ->
  item cvss_data "baseScore" = Ok base_score ->
  item cvss_data "vectorString" = Ok vector ->
  substring_of ("CVSS:" +:+ label +:+ "/") (str (py_repr E) vector) = false ->
  write_scores E r cveid cvss_dicts ws = (Ok tt, ws', l) ->
  exists cV,
    column (label +:+ "Vector") = Ok cV /\
    value (cell_at ws' r cV) = XStr (str (py_repr E) vector).
Proof.
  intros Hin Hmetric Hfirst Hdata Hbs Hvec Habsent Hrun.
  unfold write_scores in Hrun.
  apply bind_Ok_inv in Hrun as (scores & ws1 & l1 & l2 & Hfold & Hrest & ->).
  destruct (fold_cvss_records E r cvss_dicts cvss_versions initial_scores ws
              scores ws1 l1 key label metric first cvss_data base_score vector)
    as (cB & cV & HcB & HcV & Hscore & HB & HV); try done.
  { apply (bool_decide_unpack _). vm_compute. exact I. }
  { by apply Forall_forall. }
  rewrite (replace_absent _ _ _ Habsent) in HV.
  exists cV. split; [done|].
  destruct (forallb _ _).
  - apply bind_Ok_inv in Hrest as ([] & ws2 & l3 & l4 & Hlog & Hfill & ->).
    injection Hlog as <- <-. injection Hfill as <- <-.
    by rewrite fill_row_value.
  - by injection Hrest as <- <-.
Qed.

Lemma vector_without_the_label_is_kept_witness :
  exists cV,
    column ("V31" +:+ "Vector") = Ok cV /\
    value (cell_at (write_scores (Sample.answers Sample.log4shell) 2
                      (XStr "CVE-2021-44228") Sample.metrics31
                      Sample.two_rows).1.2 2 cV)
      = XStr "CVSS:3.1/AV:N/AC:L/PR:N/UI:N/S:C/C:H/I:H/A:H".
Proof.
  apply (vector_without_the_label_is_kept
           (Sample.answers Sample.log4shell) 2 (XStr "CVE-2021-44228")
           Sample.metrics31 Sample.two_rows
           (write_scores (Sample.answers Sample.log4shell) 2
              (XStr "CVE-2021-44228") Sample.metrics31 Sample.two_rows).1.2
           (write_scores (Sample.answers Sample.log4shell) 2
              (XStr "CVE-2021-44228") Sample.metrics31 Sample.two_rows).2
           "cvssMetricV31" "V31"
           (JArr [JObj [("cvssData", Sample.cvss_data31)]])
           (JObj [("cvssData", Sample.cvss_data31)])
           Sample.cvss_data31 (JFloat "10.0") (JStr Sample.vector31)).
  - vm_compute. do 2 right. left.
  - reflexivity.
  - reflexivity.
  - reflexivity.
  - reflexivity.
  - reflexivity.
  - reflexivity.
  - vm_compute. reflexivity.
Defined.

(** ** The weakness cell *)

Lemma write_cwe_inv r cve_info ws ws' l :
  write_cwe r cve_info ws = (Ok tt, ws', l) ->
  l = [] /\
  ((contains "weaknesses" cve_info = Ok false /\ ws' = ws) \/
   (exists weaknesses weakness descriptions description v x,
      item cve_info "weaknesses" = Ok weaknesses /\
      item0 weaknesses = Ok weakness /\
      item weakness "description" = Ok descriptions /\
      item0 descriptions = Ok description /\
      item description "value" = Ok v /\
      to_cell v = Ok x /\
      ws' = set_value r 5 x (<[(r, 5) := cell_at ws r 5]> ws))).
Proof.
  unfold write_cwe. intros H.
  apply lift_bind_Ok_inv in H as ([|] & Hc & H).
  - apply lift_bind_Ok_inv in H as (weaknesses & Hw & H).
    apply lift_bind_Ok_inv in H as (weakness & Hw0 & H).
    apply lift_bind_Ok_inv in H as (descriptions & Hd & H).
    apply lift_bind_Ok_inv in H as (description & Hd0 & H).
    apply lift_bind_Ok_inv in H as (v & Hv & H).
    apply lift_bind_Ok_inv in H as (c & Hcol & H).
    vm_compute in Hcol. injection Hcol as <-.
    unfold assign in H.
    apply bind_Ok_inv in H as ([] & ws1 & l1 & l2 & Hmake & H & ->).
    apply lift_bind_Ok_inv in H as (x & Hx & H).
    unfold modify in Hmake, H. injection Hmake as <- <-. injection H as <- <-.
    split; [done|]. right.
    by exists weaknesses, weakness, descriptions, description, v, x.
  - unfold mret, M_ret, ret in H. injection H as <- <-.
    split; [done|]. by left.
Qed.

Lemma fold_cvss_keeps_low E r cvss_dicts versions scores ws scores' ws' l :
  Forall (fun v => v ∈ cvss_versions) versions ->
  fold_m (cvss_step E r cvss_dicts) scores versions ws = (Ok scores', ws', l) ->
  forall r' c, c < 6 -> cell_at ws' r' c = cell_at ws r' c.
Proof.
  intros Hall. revert scores ws l.
  induction versions as [|[key label] versions IH]; intros scores ws l Hfold r' c Hc.
  - by injection Hfold as <- <- <-.
  - apply fold_m_cons_Ok_inv in Hfold
      as (scores1 & ws1 & l1 & l2 & Hstep & Hfold & ->).
    apply Forall_cons in Hall as [Hv Hall].
    rewrite (IH Hall _ _ _ Hfold r' c Hc).
    apply cvss_step_inv in Hstep as [_ [(_ & _ & ->)|Hstep]]; [done|].
    destruct Hstep as (metric & first & cvss_data & base_score & vector & cB & cV
                       & _ & _ & _ & _ & _ & _ & HcB & HcV & _ & ->).
    assert (6 <= cB /\ 6 <= cV) as [HB HV].
    { clear -Hv HcB HcV. unfold cvss_versions in Hv.
      repeat (apply elem_of_cons in Hv as [Hv|Hv];
              [injection Hv as -> ->; vm_compute in HcB, HcV;
               injection HcB as <-; injection HcV as <-; lia|]).
      by apply elem_of_nil in Hv. }
    rewrite !cell_at_set_value.
    rewrite !decide_False by (intros [=]; lia). done.
Qed.

(** X25.  The weakness cell.  When the merge of a row returns for a
    record that has a first vulnerability: if its [cve] has no
    [weaknesses] key, the row's CWE cell keeps its value; and if it has
    one, the cell holds the value of the first description of the first
    weakness, which is then a scalar. *)
Theorem merge_record_writes_the_first_weakness
    (E : env) (fs : gmap string cache_file) (r : nat) (cveid : xl_value)
    (filename : string) (ws ws' : sheet) (l : list event)
    (json_dict vulnerabilities v0 cve_info : json) :
  load_json fs filename = Ok json_dict ->
  get json_dict "vulnerabilities" (JArr []) = Ok vulnerabilities ->
  item0 vulnerabilities = Ok v0 ->
  get v0 "cve" (JObj []) = Ok cve_info ->
  merge_record E fs r cveid filename ws = (Ok tt, ws', l) ->
  (contains "weaknesses" cve_info = Ok false /\
   value (cell_at ws' r 5) = value (cell_at ws r 5)) \/
  (exists weaknesses weakness descriptions description v x,
     item cve_info "weaknesses" = Ok weaknesses /\
     item0 weaknesses = Ok weakness /\
     item weakness "description" = Ok descriptions /\
     item0 descriptions = Ok description /\
     item description "value" = Ok v /\
     to_cell v = Ok x /\
     value (cell_at ws' r 5) = x).
Proof.
  intros Hload Hvulns Hv0 Hcve Hrun. unfold merge_record in Hrun.
  apply lift_bind_Ok_inv in Hrun as (x1 & H1 & Hrun).
  rewrite Hload in H1. injection H1 as <-.
  apply lift_bind_Ok_inv in Hrun as (x2 & H2 & Hrun).
  rewrite Hvulns in H2. injection H2 as <-.
  assert (Htruthy : truthy vulnerabilities = true).
  { clear -Hv0. destruct vulnerabilities as [| | | |s|items|]; try done.
    - by destruct s.
    - by destruct items. }
  rewrite Htruthy in Hrun. cbn [negb] in Hrun.
  apply lift_bind_Ok_inv in Hrun as (x3 & H3 & Hrun).
  rewrite Hv0 in H3. injection H3 as <-.
  apply lift_bind_Ok_inv in Hrun as (x4 & H4 & Hrun).
  rewrite Hcve in H4. injection H4 as <-.
  apply lift_bind_Ok_inv in Hrun as (cvss_dicts & Hmetrics & Hrun).
  apply lift_bind_Ok_inv in Hrun as (x5 & H5 & Hrun).
  rewrite Hv0 in H5. injection H5 as <-.
  apply lift_bind_Ok_inv in Hrun as (x6 & H6 & Hrun).
  rewrite Hcve in H6. injection H6 as <-.
  apply bind_Ok_inv in Hrun as ([] & ws1 & l1 & l2 & Hcwe & Hscores & ->).
  assert (Hkept : value (cell_at ws' r 5) = value (cell_at ws1 r 5)).
  { unfold write_scores in Hscores.
    apply bind_Ok_inv in Hscores as (scores & ws2 & l3 & l4 & Hfold & Hrest & ->).
    rewrite <- (fold_cvss_keeps_low _ _ _ _ _ _ _ _ _
                  ltac:(by apply Forall_forall) Hfold r 5) by lia.
    destruct (forallb _ _).
    - apply bind_Ok_inv in Hrest as ([] & ws3 & l5 & l6 & Hlog & Hfill & ->).
      injection Hlog as <- <-. injection Hfill as <- <-.
      by rewrite fill_row_value.
    - by injection Hrest as <- <-. }
  apply write_cwe_inv in Hcwe as [_ [[Habs ->]|Hcwe]]; [by left|].
  destruct Hcwe as (weaknesses & weakness & descriptions & description & v & x
                    & Hw & Hw0 & Hd & Hd0 & Hv & Hx & ->).
  right. exists weaknesses, weakness, descriptions, description, v, x.
  split_and!; try done.
  rewrite Hkept, cell_at_set_value. by rewrite decide_True.
Qed.

Lemma merge_record_writes_the_first_weakness_witness :
  let fs : gmap string cache_file :=
    {[ "cache/CVE-2021-44228.json" := Json Sample.log4shell ]} in
  let run := merge_record (Sample.answers Sample.log4shell) fs 2
               (XStr "CVE-2021-44228") "cache/CVE-2021-44228.json"
               Sample.two_rows in
  let cve_info := JObj [("id", JStr "CVE-2021-44228");
                        ("metrics", Sample.metrics31)] in
  (contains "weaknesses" cve_info = Ok false /\
   value (cell_at run.1.2 2 5) = value (cell_at Sample.two_rows 2 5)) \/
  (exists weaknesses weakness descriptions description v x,
     item cve_info "weaknesses" = Ok weaknesses /\
     item0 weaknesses = Ok weakness /\
     item weakness "description" = Ok descriptions /\
     item0 descriptions = Ok description /\
     item description "value" = Ok v /\
     to_cell v = Ok x /\
     value (cell_at run.1.2 2 5) = x).
Proof.
  intros fs run cve_info.
  apply (merge_record_writes_the_first_weakness
           (Sample.answers Sample.log4shell) fs 2 (XStr "CVE-2021-44228")
           "cache/CVE-2021-44228.json" Sample.two_rows run.1.2 run.2
           Sample.log4shell
           (JArr [JObj [("cve", cve_info)]])
           (JObj [("cve", cve_info)])
           cve_info).
  - reflexivity.
  - reflexivity.
  - reflexivity.
  - reflexivity.
  - vm_compute. reflexivity.
Defined.

(** ** The log of the merge *)

Section Logs.
Context {S : Type}.









End Logs.




